(** * PAL (Prompt Assembly Language): exceptions, CLI, resolver and executor

    A shallow embedding of the PAL sources:
    - [src/pal/exceptions/core.py]  (module [Exceptions])
    - [src/pal/cli/main.py]         (module [Cli])
    together with models, written from the specification, of the two core
    stages whose sources are not part of this tree: the Resolver (module
    [Resolver]) and the Executor (module [Executor]). *)

From Stdlib Require Import String Ascii List ZArith QArith Bool Arith Lia.
From Stdlib Require Import DecimalString Sorted Permutation.
Import ListNotations.
Local Open Scope string_scope.
Local Open Scope list_scope.

(* ===================================================================== *)
(** * Python values and insertion-ordered dictionaries *)
(* ===================================================================== *)

(** The values a [dict[str, Any]] holds in this program: JSON data decoded by
    [json.loads] and the entries of an error's context.  Numbers are
    integers here; no command inspects a number. *)
#[local] Set Warnings "-register-all".
Inductive pyvalue : Type :=
| VNone
| VBool (b : bool)
| VInt (z : Z)
| VStr (s : string)
| VList (l : list pyvalue)
| VDict (d : list (string * pyvalue)).

Section Dict.
Context {V : Type}.

(** A Python [dict] with string keys: an association list in insertion
    order.  A well-formed dict has no repeated key ([dict_wf]). *)
Definition dict : Type := list (string * V).

Definition dict_keys (d : dict) : list string := map fst d.

Definition dict_wf (d : dict) : Prop := NoDup (dict_keys d).

Fixpoint dict_get (k : string) (d : dict) : option V :=
  match d with
  | [] => None
  | (k', v) :: d' => if String.eqb k k' then Some v else dict_get k d'
  end.

(** [d[k] = v]: an existing key keeps its position, a new key goes last. *)
Fixpoint dict_set (k : string) (v : V) (d : dict) : dict :=
  match d with
  | [] => [(k, v)]
  | (k', v') :: d' =>
      if String.eqb k k' then (k, v) :: d' else (k', v') :: dict_set k v d'
  end.

(** [d.update(other)] for a mapping [other]: its items are stored one by
    one, in order. *)
Definition dict_update (d other : dict) : dict :=
  fold_left (fun acc kv => dict_set (fst kv) (snd kv) acc) other d.

Lemma dict_get_set_eq k v d : dict_get k (dict_set k v d) = Some v.
Proof.
  induction d as [|[k' v'] d IH]; simpl.
  - now rewrite String.eqb_refl.
  - destruct (String.eqb k k') eqn:E; simpl.
    + now rewrite String.eqb_refl.
    + now rewrite E.
Qed.

Lemma dict_get_set_neq k k' v d :
  k <> k' -> dict_get k (dict_set k' v d) = dict_get k d.
Proof.
  intros Hne. induction d as [|[k2 v2] d IH]; simpl.
  - destruct (String.eqb k k') eqn:E; [apply String.eqb_eq in E; contradiction | reflexivity].
  - destruct (String.eqb k' k2) eqn:E2; simpl.
    + apply String.eqb_eq in E2. subst k2.
      destruct (String.eqb k k') eqn:E; [apply String.eqb_eq in E; contradiction | reflexivity].
    + destruct (String.eqb k k2); [reflexivity | exact IH].
Qed.

Lemma dict_get_None_notin k d : dict_get k d = None -> ~ In k (dict_keys d).
Proof.
  induction d as [|[k' v'] d IH]; simpl; intros H; [tauto|].
  destruct (String.eqb k k') eqn:E; [discriminate|].
  intros [Hk | Hk]; [subst; rewrite String.eqb_refl in E; discriminate | now apply IH].
Qed.

Lemma dict_get_In k v d : dict_get k d = Some v -> In (k, v) d.
Proof.
  induction d as [|[k' v'] d IH]; simpl; intros H; [discriminate|].
  destruct (String.eqb k k') eqn:E.
  - apply String.eqb_eq in E. inversion H. subst. now left.
  - right. now apply IH.
Qed.

Lemma dict_In_get k v d : dict_wf d -> In (k, v) d -> dict_get k d = Some v.
Proof.
  unfold dict_wf, dict_keys.
  induction d as [|[k' v'] d IH]; simpl; intros Hnd Hin; [tauto|].
  inversion Hnd as [|? ? Hnotin Hnd']; subst.
  destruct Hin as [Heq | Hin].
  - inversion Heq; subst. now rewrite String.eqb_refl.
  - destruct (String.eqb k k') eqn:E.
    + apply String.eqb_eq in E. subst k'.
      exfalso. apply Hnotin. now apply (in_map fst) in Hin.
    + now apply IH.
Qed.

(** What a lookup sees after [update]: the updating mapping first. *)
Lemma dict_get_update k d other :
  dict_wf other ->
  dict_get k (dict_update d other) =
    match dict_get k other with
    | Some v => Some v
    | None => dict_get k d
    end.
Proof.
  unfold dict_update, dict_wf, dict_keys.
  revert d. induction other as [|[k' v'] other IH]; simpl; intros d Hnd.
  - reflexivity.
  - inversion Hnd as [|? ? Hnotin Hnd']; subst.
    rewrite IH by assumption.
    destruct (String.eqb k k') eqn:E.
    + apply String.eqb_eq in E. subst k'.
      destruct (dict_get k other) eqn:G.
      * apply dict_get_In in G. exfalso. apply Hnotin.
        now apply (in_map fst) in G.
      * apply dict_get_set_eq.
    + destruct (dict_get k other); [reflexivity|].
      apply dict_get_set_neq. intros ->. now rewrite String.eqb_refl in E.
Qed.

Lemma dict_keys_set k v d :
  dict_keys (dict_set k v d) =
    if existsb (String.eqb k) (dict_keys d) then dict_keys d
    else dict_keys d ++ [k].
Proof.
  unfold dict_keys.
  induction d as [|[k' v'] d IH]; simpl; [reflexivity|].
  destruct (String.eqb k k') eqn:E; simpl.
  - apply String.eqb_eq in E. now subst.
  - rewrite IH. now destruct (existsb (String.eqb k) (map fst d)).
Qed.

Lemma dict_set_wf k v d : dict_wf d -> dict_wf (dict_set k v d).
Proof.
  unfold dict_wf. intros Hnd. rewrite dict_keys_set.
  destruct (existsb (String.eqb k) (dict_keys d)) eqn:E; [assumption|].
  apply NoDup_app; [assumption | repeat constructor; simpl; tauto |].
  intros x Hx [Hk | []]. subst x.
  assert (existsb (String.eqb k) (dict_keys d) = true) as C.
  { apply existsb_exists. exists k. split; [assumption | apply String.eqb_refl]. }
  congruence.
Qed.

Lemma dict_update_wf d other : dict_wf d -> dict_wf (dict_update d other).
Proof.
  unfold dict_update. revert d.
  induction other as [|[k v] other IH]; simpl; intros d Hd; [assumption|].
  apply IH. now apply dict_set_wf.
Qed.
End Dict.

Arguments dict V : clear implicits.

(** [x or {}] on an optional dict ([dict | None]): the left operand when it is
    truthy (a non-empty dict), the right operand otherwise. *)
Definition or_empty_dict {V} (context : option (dict V)) : option (dict V) :=
  match context with
  | Some (kv :: d) => Some (kv :: d)
  | Some [] | None => Some []
  end.

(* ===================================================================== *)
(** * [pal/exceptions/core.py] *)
(* ===================================================================== *)

Module Exceptions.

(** The exception classes of the program: the nine classes declared in
    [core.py], the builtin classes the CLI meets and the classes of the
    error that [rich] raises on malformed console markup. *)
Inductive exc_class : Type :=
| BaseException
| Exception
| ValueError
| JSONDecodeError
| TypeError
| LookupError
| KeyError
| OSError
| ConsoleError
| MarkupError
| PALError
| PALValidationError
| PALLoadError
| PALResolverError
| PALCompilerError
| PALExecutorError
| PALCircularDependencyError
| PALMissingVariableError
| PALMissingComponentError.

Definition exc_class_eqb (c d : exc_class) : bool :=
  match c, d with
  | BaseException, BaseException | Exception, Exception
  | ValueError, ValueError | JSONDecodeError, JSONDecodeError
  | TypeError, TypeError | KeyError, KeyError | OSError, OSError
  | LookupError, LookupError | ConsoleError, ConsoleError
  | MarkupError, MarkupError
  | PALError, PALError | PALValidationError, PALValidationError
  | PALLoadError, PALLoadError | PALResolverError, PALResolverError
  | PALCompilerError, PALCompilerError | PALExecutorError, PALExecutorError
  | PALCircularDependencyError, PALCircularDependencyError
  | PALMissingVariableError, PALMissingVariableError
  | PALMissingComponentError, PALMissingComponentError => true
  | _, _ => false
  end.

Lemma exc_class_eqb_eq c d : exc_class_eqb c d = true <-> c = d.
Proof. split; [destruct c, d; simpl; congruence | intros ->; now destruct d]. Qed.

(** The base named in each [class X(Base)] statement. *)
Definition base (c : exc_class) : option exc_class :=
  match c with
  | BaseException => None
  | Exception => Some BaseException
  | ValueError | TypeError | OSError | LookupError => Some Exception
  | KeyError => Some LookupError
  | ConsoleError => Some Exception
  | MarkupError => Some ConsoleError
  | JSONDecodeError => Some ValueError
  | PALError => Some Exception
  | PALValidationError => Some PALError
  | PALLoadError => Some PALError
  | PALResolverError => Some PALError
  | PALCompilerError => Some PALError
  | PALExecutorError => Some PALError
  | PALCircularDependencyError => Some PALResolverError
  | PALMissingVariableError => Some PALCompilerError
  | PALMissingComponentError => Some PALCompilerError
  end.

(** The classes [core.py] declares. *)
Definition domain_classes : list exc_class :=
  [ PALError; PALValidationError; PALLoadError; PALResolverError;
    PALCompilerError; PALExecutorError; PALCircularDependencyError;
    PALMissingVariableError; PALMissingComponentError ].

(** A class followed by its chain of bases (single inheritance, so this is
    the method resolution order).  No chain is longer than five classes. *)
Fixpoint ancestors (depth : nat) (c : exc_class) : list exc_class :=
  c :: match depth with
       | O => []
       | S depth' =>
           match base c with
           | Some b => ancestors depth' b
           | None => []
           end
       end.

Definition mro (c : exc_class) : list exc_class := ancestors 4 c.

Definition issubclass (c d : exc_class) : bool :=
  existsb (exc_class_eqb d) (mro c).

(** An exception instance: its class, [str(error)] and the [context]
    attribute.  [exc_context = None] stands for an attribute that is absent
    or holds Python's [None]; both are falsy where the attribute is read. *)
Record exception : Type := mkException {
  exc_type : exc_class;
  exc_str : string;
  exc_context : option (dict pyvalue)
}.

(** [PALError.__init__(self, message, context=None)], inherited unchanged
    by every subclass (their bodies are [pass]). *)
Definition PALError_init (cls : exc_class) (message : string)
           (context : option (dict pyvalue)) : exception :=
  {| exc_type := cls;
     exc_str := message;                      (* super().__init__(message) *)
     exc_context := or_empty_dict context |}. (* self.context = context or {} *)

(** A builtin exception, which has no [context] attribute. *)
Definition builtin_exception (cls : exc_class) (message : string) : exception :=
  {| exc_type := cls; exc_str := message; exc_context := None |}.

Definition isinstance (e : exception) (c : exc_class) : bool :=
  issubclass (exc_type e) c.

(** [except handler as e] catches [e] when [e] is an instance of [handler]. *)
Definition catches (handler : exc_class) (e : exception) : bool :=
  isinstance e handler.

(** [error.context.items()], defined when the attribute is a mapping. *)
Definition context_items (e : exception) : option (list (string * pyvalue)) :=
  exc_context e.

End Exceptions.

(* ===================================================================== *)
(** * Control flow *)
(* ===================================================================== *)

(** How a piece of Python ends: it returns, it raises an exception, or
    [sys.exit(code)] raises [SystemExit], which is not an [Exception] and
    passes through every [except Exception] clause. *)
Inductive outcome (A : Type) : Type :=
| Returned (a : A)
| Raised (e : Exceptions.exception)
| Exited (code : Z).
Arguments Returned {A} a.
Arguments Raised {A} e.
Arguments Exited {A} code.

(* ===================================================================== *)
(** * The data model ([pal/models/schema.py]) *)
(* ===================================================================== *)

Module Schema.

(** Modelled from the spec: [pal/models/schema.py] is not part of this
    tree.  The records carry the fields that section 3 of the
    specification lists and that [cli/main.py] and the tests read. *)
Record PALVariable : Type := {   (* class [Variable] *)
  var_name : string;
  var_type : string;            (* [var.type.value] *)
  var_required : bool;
  var_description : string
}.

(** Modelled from the spec: the missing class [PromptAssembly]. *)
Record PromptAssembly : Type := {
  pa_id : string;
  pa_version : string;
  pa_description : string;
  pa_author : option string;
  pa_variables : list PALVariable;
  pa_imports : dict string;     (* alias -> path or URL *)
  pa_composition : list string
}.

(** Modelled from the spec: the missing class [Component]. *)
Record Component : Type := {
  comp_name : string;
  comp_description : string;
  comp_content : string
}.

(** Modelled from the spec: the missing class [ComponentLibrary]. *)
Record ComponentLibrary : Type := {
  library_id : string;
  lib_version : string;
  lib_type : string;            (* [library.type.value] *)
  lib_description : string;
  lib_components : list Component
}.

(** Modelled from the spec: the missing class [ExecutionResult]; the token
    counts and the cost are optional, the error is present on failure. *)
Record ExecutionResult : Type := {
  prompt_id : string;
  prompt_version : string;
  model : string;
  compiled_prompt : string;
  response : string;
  metadata : dict pyvalue;
  execution_time_ms : Q;
  timestamp : string;
  input_tokens : option Z;
  output_tokens : option Z;
  estimated_cost : option Q;
  success : bool;
  error : option string
}.

(** Modelled from the spec: what [evaluate] reads of the missing
    evaluation results. *)
Record EvaluationTestResult : Type := {
  test_case_name : string;      (* [test_result.test_case.name] *)
  passed : bool
}.

Record EvaluationResult : Type := {
  pass_rate : Q;
  total_tests : nat;
  failed_tests : nat;
  test_results : list EvaluationTestResult
}.

End Schema.

(* ===================================================================== *)
(** * Strings and paths *)
(* ===================================================================== *)

Definition newline : string := String (ascii_of_nat 10) EmptyString.

(** [str(n)] for a natural number. *)
Definition str_of_nat (n : nat) : string :=
  NilZero.string_of_uint (Nat.to_uint n).

(** [s.endswith(suffix)]. *)
Definition endswith (s suffix : string) : bool :=
  (String.length suffix <=? String.length s)%nat &&
  String.eqb
    (substring (String.length s - String.length suffix) (String.length suffix) s)
    suffix.

(** [s.startswith(prefix)]. *)
Definition startswith (s prefix : string) : bool := String.prefix prefix s.

(** A component that [pathlib] keeps: neither empty (a repeated or a
    trailing slash) nor a single dot. *)
Definition kept_component (component : string) : bool :=
  negb (String.eqb component "") && negb (String.eqb component ".").

(** [Path.name]: the last component that [pathlib] keeps, so that
    [Path("lib/").name] is [lib]; the empty string when there is none. *)
Fixpoint path_name_from (s current last : string) : string :=
  match s with
  | EmptyString => if kept_component current then current else last
  | String c s' =>
      if Ascii.eqb c "/"
      then path_name_from s' EmptyString
             (if kept_component current then current else last)
      else path_name_from s' (current ++ String c EmptyString) last
  end.

Definition path_name (p : string) : string :=
  path_name_from p EmptyString EmptyString.

(** Python strings are sequences of characters (code points); the strings
    here hold their UTF-8 bytes.  A byte [10xxxxxx] continues the character
    that the bytes before it began. *)
Definition continuation_byte (c : ascii) : bool :=
  (128 <=? nat_of_ascii c)%nat && (nat_of_ascii c <? 192)%nat.

(** [len(s)]: the number of characters. *)
Fixpoint py_len (s : string) : nat :=
  match s with
  | EmptyString => O
  | String c s' => if continuation_byte c then py_len s' else S (py_len s')
  end.

(** [s[:n]]: the first [n] characters. *)
Fixpoint py_take (n : nat) (s : string) : string :=
  match s with
  | EmptyString => EmptyString
  | String c s' =>
      if continuation_byte c then String c (py_take n s')
      else match n with
           | O => EmptyString
           | S n' => String c (py_take n' s')
           end
  end.

(** [s[:50] + "..." if len(s) > 50 else s]. *)
Definition cut_at_50 (s : string) : string :=
  if (50 <? py_len s)%nat then py_take 50 s ++ "..." else s.

(** [name[name.rfind('.'):]] when the name holds a dot. *)
Fixpoint from_last_dot (s : string) (found : option string) : option string :=
  match s with
  | EmptyString => found
  | String c s' =>
      if Ascii.eqb c "." then from_last_dot s' (Some (String c s'))
      else from_last_dot s' found
  end.

(** [Path.suffix]: with [i = name.rfind('.')], [name[i:]] when
    [0 < i < len(name) - 1], the empty string otherwise. *)
Definition path_suffix (p : string) : string :=
  let name := path_name p in
  match from_last_dot name None with
  | Some suf =>
      if (String.length suf <? String.length name)%nat
         && (1 <? String.length suf)%nat
      then suf else EmptyString
  | None => EmptyString
  end.

(** [sorted(xs)] on strings: insertion sort by [String.leb]. *)
Fixpoint insert_sorted (x : string) (xs : list string) : list string :=
  match xs with
  | [] => [x]
  | y :: ys => if String.leb x y then x :: y :: ys else y :: insert_sorted x ys
  end.

Definition sorted (xs : list string) : list string :=
  fold_right insert_sorted [] xs.

(** Set difference [a - b] on sets of strings held as duplicate-free lists. *)
Definition set_minus (a b : list string) : list string :=
  filter (fun x => negb (existsb (String.eqb x) b)) a.

(* ===================================================================== *)
(** * [pal/cli/main.py] *)
(* ===================================================================== *)

Module Cli.
Import Exceptions Schema.

Definition path : Type := string.

(** What [rich] is asked to render. *)
Inductive renderable : Type :=
| Text (s : string)
| Panel (body title subtitle : string)
| SyntaxPanel (code lexer title : string)   (* [Panel(Syntax(...), title=...)] *)
| Table (title : string) (columns : list string) (rows : list (list string))
| JSON (data : pyvalue).

Inductive event : Type :=
| Stdout (r : renderable)        (* [console.print] *)
| Stderr (s : string).           (* [error_console.print] *)

(** A command: the console output so far and how it ended. *)
Definition cli (A : Type) : Type := (list event * outcome A)%type.

Definition ret {A} (a : A) : cli A := ([], Returned a).

Definition bind {A B} (m : cli A) (k : A -> cli B) : cli B :=
  match m with
  | (evs, Returned a) => let (evs', r) := k a in (evs ++ evs', r)
  | (evs, Raised e) => (evs, Raised e)
  | (evs, Exited c) => (evs, Exited c)
  end.

Notation "x <- m ;; k" := (bind m (fun x => k))
  (at level 61, m at next level, right associativity).
Notation "m ;;; k" := (bind m (fun _ => k))
  (at level 61, right associativity).

(** A call into a collaborator. *)
Definition call {A} (o : outcome A) : cli A := ([], o).

(** [console.print] and [error_console.print] of a text that [rich]
    renders: one whose markup is written out in [main.py] and that holds,
    besides it, only numbers or the message of a [JSONDecodeError], which
    [json] composes from fixed phrases and positions; and [console.print]
    of data that [JSON.from_data] has serialized.  Texts that hold other
    run-time data go through [console_print] and [error_print] below. *)
Definition print (r : renderable) : cli unit := ([Stdout r], Returned tt).
Definition eprint (s : string) : cli unit := ([Stderr s], Returned tt).
Definition sys_exit {A} (code : Z) : cli A := ([], Exited code).

(** The texts of a renderable that [rich] reads as console markup: a
    printed string, the body, title and subtitle of a panel, the title of a
    panel around highlighted code, the title, headers and cells of a table.
    Highlighted code and JSON data are not read as markup. *)
Definition markup_texts (r : renderable) : list string :=
  match r with
  | Text s => [s]
  | Panel body title subtitle => [body; title; subtitle]
  | SyntaxPanel code lexer title => [title]
  | Table title columns rows => title :: columns ++ concat rows
  | JSON data => []
  end.

(** [try: body except cls as e: handler(e)]. *)
Definition try_except {A} (body : cli A) (cls : exc_class)
           (handler : exception -> cli A) : cli A :=
  match body with
  | (evs, Raised e) =>
      if catches cls e
      then let (evs', r) := handler e in (evs ++ evs', r)
      else (evs, Raised e)
  | other => other
  end.

(** The exit status of the process once the command function is left:
    0 when it returns, the code given to [sys.exit], and 1 when an
    exception is left uncaught. *)
Definition exit_code {A} (run : cli A) : Z :=
  match snd run with
  | Returned _ => 0
  | Exited code => code
  | Raised _ => 1
  end.

Definition console_output {A} (run : cli A) : list event := fst run.

(** ** Collaborators

    The Python builtins and the parts of PAL that [main.py] imports and
    whose sources are outside this module. *)
Record collaborators : Type := {
  (* [rich]: the [MarkupError] that rendering a text as console markup
     raises (a closing tag that matches no open tag, say), if any *)
  markup_error : string -> option exception;
  py_str : pyvalue -> string;                     (* [str(value)] *)
  json_loads : string -> outcome pyvalue;         (* [json.loads] *)
  json_load_file : path -> outcome pyvalue;       (* [open] + [json.load] *)
  json_dumps : pyvalue -> string;                 (* [json.dumps(_, indent=2)] *)
  (* [JSON.from_data(data)], which serializes [data] and raises where
     [json.dumps] does *)
  json_from_data : pyvalue -> outcome unit;
  (* [dict.update(x)] for an [x] that is not a mapping *)
  update_from_iterable : dict pyvalue -> pyvalue -> outcome (dict pyvalue);
  write_text : path -> string -> outcome unit;    (* [Path.write_text] *)
  is_file : path -> bool;
  is_dir : path -> bool;
  glob : path -> string -> list path;
  parent : path -> path;
  relative_to : path -> path -> outcome string;   (* [str(p.relative_to(q))] *)
  format_1f : Q -> string;                        (* [f"{x:.1f}"] *)
  str_of_tokens : option Z -> string;             (* [f"{result.input_tokens}"] *)

  llm_client : Type;
  OpenAIClient : option string -> outcome llm_client;
  AnthropicClient : option string -> outcome llm_client;
  MockLLMClient : string -> outcome llm_client;

  compile_from_file_sync : path -> dict pyvalue -> outcome string;
  load_prompt_assembly : path -> outcome PromptAssembly;
  load_prompt_assembly_async : path -> outcome PromptAssembly;
  load_component_library : path -> outcome ComponentLibrary;
  compiler_compile : PromptAssembly -> dict pyvalue -> path -> outcome string;
  (* returns a set of names, held as a duplicate-free list *)
  analyze_template_variables : PromptAssembly -> outcome (list string);
  (* [PromptExecutor(llm_client, log_file).execute(...)] *)
  executor_execute :
    llm_client -> option path -> string -> PromptAssembly -> string -> Q ->
    option Z -> outcome ExecutionResult;
  model_dump_json : ExecutionResult -> string;
  model_dump : ExecutionResult -> pyvalue;
  run_evaluation :
    llm_client -> path -> option path -> string -> Q -> option Z ->
    outcome EvaluationResult;
  generate_json_report : EvaluationResult -> outcome pyvalue;
  generate_console_report : EvaluationResult -> outcome string
}.

Section Commands.
Variable env : collaborators.

(** ** Printing run-time text *)

Fixpoint first_markup_error (texts : list string) : option exception :=
  match texts with
  | [] => None
  | text :: rest =>
      match markup_error env text with
      | Some e => Some e
      | None => first_markup_error rest
      end
  end.

(** [console.print(r)] with the markup of [r] rendered: nothing is written
    when [rich] raises. *)
Definition console_print (r : renderable) : cli unit :=
  match first_markup_error (markup_texts r) with
  | Some e => ([], Raised e)
  | None => ([Stdout r], Returned tt)
  end.

(** [error_console.print(text)], likewise. *)
Definition error_print (text : string) : cli unit :=
  match markup_error env text with
  | Some e => ([], Raised e)
  | None => ([Stderr text], Returned tt)
  end.

(** A loop that prints one text after the other on the error console. *)
Fixpoint error_print_each (texts : list string) : cli unit :=
  match texts with
  | [] => ret tt
  | text :: rest => error_print text ;;; error_print_each rest
  end.

(** [console.print(JSON.from_data(data))]. *)
Definition print_json (data : pyvalue) : cli unit :=
  call (json_from_data env data) ;;; print (JSON data).

(** ** [handle_error] *)

Definition context_line (item : string * pyvalue) : string :=
  "  " ++ fst item ++ ": " ++ py_str env (snd item).

Definition handle_error (error : exception) : cli unit :=
  if isinstance error PALError then
    error_print ("[red]Error:[/red] " ++ exc_str error) ;;;
    match exc_context error with             (* hasattr(...) and error.context *)
    | Some (item :: items) =>
        eprint "[dim]Context:[/dim]" ;;;
        error_print_each (map context_line (item :: items))
    | Some [] | None => ret tt
    end
  else
    error_print ("[red]Unexpected error:[/red] " ++ exc_str error).

(** The clause that closes every command:
    [except Exception as e: handle_error(e); sys.exit(1)]. *)
Definition on_exception {A} (e : exception) : cli A :=
  handle_error e ;;; sys_exit 1.

Definition guarded {A} (body : cli A) : cli A :=
  try_except body Exception on_exception.

(** ** Loading variables (the opening of [compile] and of [execute]) *)

(** [variables.update(data)]. *)
Definition variables_update (variables : dict pyvalue) (data : pyvalue)
  : outcome (dict pyvalue) :=
  match data with
  | VDict other => Returned (dict_update variables other)
  | _ => update_from_iterable env variables data
  end.

Definition load_variables (vars : option string) (vars_file : option path)
  : cli (dict pyvalue) :=
  let variables : dict pyvalue := [] in
  variables <-
    match vars_file with
    | Some f =>
        data <- call (json_load_file env f) ;;
        call (variables_update variables data)
    | None => ret variables
    end ;;
  match vars with
  | Some (String c s) =>                       (* [if vars:] *)
      try_except
        (data <- call (json_loads env (String c s)) ;;
         call (variables_update variables data))
        JSONDecodeError
        (fun e =>
           eprint ("[red]Invalid JSON in --vars:[/red] " ++ exc_str e) ;;;
           sys_exit 1)
  | Some EmptyString | None => ret variables
  end.

(** ** [compile] *)

Definition compile_with (pal_file : path) (variables : dict pyvalue)
           (output : option path) (no_format : bool) : cli unit :=
  compiled_prompt <- call (compile_from_file_sync env pal_file variables) ;;
  match output with
  | Some out =>
      call (write_text env out compiled_prompt) ;;;
      console_print (Text ("[green]✓[/green] Compiled prompt written to " ++ out))
  | None =>
      if no_format then console_print (Text compiled_prompt)
      else console_print (SyntaxPanel compiled_prompt "markdown"
                            ("Compiled Prompt: " ++ path_name pal_file))
  end.

(** The statements inside [try:]. *)
Definition compile_body (pal_file : path) (vars : option string)
           (vars_file : option path) (output : option path)
           (no_format : bool) : cli unit :=
  variables <- load_variables vars vars_file ;;
  compile_with pal_file variables output no_format.

Definition compile (pal_file : path) (vars : option string)
           (vars_file : option path) (output : option path)
           (no_format : bool) : cli unit :=
  guarded (compile_body pal_file vars vars_file output no_format).

(** ** [execute] *)

Definition make_client (provider : string) (api_key : option string)
           (mock_response : string) : cli (llm_client env) :=
  if String.eqb provider "openai" then call (OpenAIClient env api_key)
  else if String.eqb provider "anthropic" then call (AnthropicClient env api_key)
  else call (MockLLMClient env mock_response).

(** The nested coroutine [run_execution]. *)
Definition run_execution (pal_file : path) (model : string)
           (variables : dict pyvalue) (client : llm_client env)
           (temperature : Q) (max_tokens : option Z)
           (log_file output : option path) (json_output : bool) : cli unit :=
  prompt_assembly <- call (load_prompt_assembly_async env pal_file) ;;
  compiled_prompt <- call (compiler_compile env prompt_assembly variables pal_file) ;;
  result <- call (executor_execute env client log_file compiled_prompt
                    prompt_assembly model temperature max_tokens) ;;
  match output with
  | Some out =>
      (if json_output
       then call (write_text env out (model_dump_json env result))
       else call (write_text env out (response result))) ;;;
      console_print (Text ("[green]✓[/green] Response written to " ++ out))
  | None =>
      if json_output then print_json (model_dump env result)
      else console_print
             (Panel (response result)
                    ("Response from " ++ model)
                    ("Tokens: " ++ str_of_tokens env (input_tokens result) ++ "→"
                     ++ str_of_tokens env (output_tokens result) ++ " | Time: "
                     ++ format_1f env (execution_time_ms result) ++ "ms"))
  end.

Definition execute_body (pal_file : path) (model provider : string)
           (vars : option string) (vars_file : option path)
           (temperature : Q) (max_tokens : option Z)
           (api_key : option string) (log_file output : option path)
           (json_output : bool) : cli unit :=
  variables <- load_variables vars vars_file ;;
  client <- make_client provider api_key
              "This is a mock response from the PAL system." ;;
  run_execution pal_file model variables client temperature max_tokens
    log_file output json_output.

Definition execute (pal_file : path) (model provider : string)
           (vars : option string) (vars_file : option path)
           (temperature : Q) (max_tokens : option Z)
           (api_key : option string) (log_file output : option path)
           (json_output : bool) : cli unit :=
  guarded (execute_body pal_file model provider vars vars_file temperature
             max_tokens api_key log_file output json_output).

(** ** [validate] *)

Definition status_valid : string := "[green]Valid[/green]".
Definition status_warning : string := "[yellow]Warning[/yellow]".
Definition status_invalid : string := "[red]Invalid[/red]".

(** One pass of the loop body over [file_path], up to [table.add_row]:
    [None] for [continue], otherwise the file type, the status, the
    issues and whether [valid_files] is incremented. *)
Record verdict : Type := {
  file_type : string;
  status : string;
  issues : string;
  counts_as_valid : bool
}.

Definition undefined_variables (prompt_assembly : PromptAssembly)
           (template_vars : list string) : list string :=
  let defined_vars := map var_name (pa_variables prompt_assembly) in
  set_minus (set_minus template_vars defined_vars) ["loop"; "super"].

Definition check_file (file_path : path) : cli (option verdict) :=
  try_except
    (if String.eqb (path_suffix file_path) ".pal" then
       prompt_assembly <- call (load_prompt_assembly env file_path) ;;
       template_vars <- call (analyze_template_variables env prompt_assembly) ;;
       match undefined_variables prompt_assembly template_vars with
       | u :: us =>
           ret (Some {| file_type := "Assembly";
                        status := status_warning;
                        issues := "Undefined variables: "
                                  ++ String.concat ", " (sorted (u :: us));
                        counts_as_valid := false |})
       | [] =>
           ret (Some {| file_type := "Assembly";
                        status := status_valid;
                        issues := "";
                        counts_as_valid := true |})
       end
     else if String.eqb (path_suffix file_path) ".lib"
             && endswith (path_name file_path) ".pal.lib" then
       call (load_component_library env file_path) ;;;
       ret (Some {| file_type := "Library";
                    status := status_valid;
                    issues := "";
                    counts_as_valid := true |})
     else ret None)
    Exception
    (fun e =>
       let s := exc_str e in
       ret (Some {| file_type := "Unknown";
                    status := status_invalid;
                    issues := cut_at_50 s;
                    counts_as_valid := false |})).

(** The [for file_path in files_to_check] loop, threading the table rows
    and [valid_files]. *)
Fixpoint check_files (root : path) (files : list path)
         (rows : list (list string)) (valid_files : nat)
  : cli (list (list string) * nat) :=
  match files with
  | [] => ret (rows, valid_files)
  | file_path :: rest =>
      v <- check_file file_path ;;
      match v with
      | None => check_files root rest rows valid_files
      | Some v =>
          shown <- call (relative_to env file_path (parent env root)) ;;
          check_files root rest
            (rows ++ [[shown; file_type v; status v; issues v]])
            (if counts_as_valid v then S valid_files else valid_files)
      end
  end.

Definition files_to_check (p : path) (recursive : bool) : list path :=
  if is_file env p then [p]
  else if is_dir env p then
    glob env p (if recursive then "**/*.pal" else "*.pal")
    ++ glob env p (if recursive then "**/*.pal.lib" else "*.pal.lib")
  else [].

Definition validate_body (p : path) (recursive : bool) : cli unit :=
  match files_to_check p recursive with
  | [] => print (Text "[yellow]No PAL files found to validate[/yellow]")
  | f :: fs =>
      let total_files := List.length (f :: fs) in
      r <- check_files p (f :: fs) [] 0 ;;
      let (rows, valid_files) := r : list (list string) * nat in
      console_print (Table "PAL Validation Results"
                       ["File"; "Type"; "Status"; "Issues"] rows) ;;;
      print (Text (newline ++ "[bold]Summary:[/bold] "
                   ++ str_of_nat valid_files ++ "/"
                   ++ str_of_nat total_files ++ " files valid")) ;;;
      if (valid_files <? total_files)%nat then sys_exit 1 else ret tt
  end.

Definition validate (p : path) (recursive : bool) : cli unit :=
  guarded (validate_body p recursive).

(** ** [info] *)

(** The tables that [info] builds for a library. *)
Definition library_table (library : ComponentLibrary) : renderable :=
  Table ("Component Library: " ++ library_id library)
    ["Property"; "Value"]
    [ ["Library ID"; library_id library];
      ["Version"; lib_version library];
      ["Type"; lib_type library];
      ["Description"; lib_description library];
      ["Components"; str_of_nat (List.length (lib_components library))] ].

Definition components_table (library : ComponentLibrary) : renderable :=
  Table "Components" ["Name"; "Description"; "Content Length"]
    (map (fun comp =>
            [ comp_name comp;
              cut_at_50 (comp_description comp);
              str_of_nat (py_len (comp_content comp)) ])
         (lib_components library)).

Definition info_library (library : ComponentLibrary) : cli unit :=
  console_print (library_table library) ;;;
  match lib_components library with
  | [] => ret tt
  | _ :: _ => console_print (components_table library)
  end.

(** The tables that [info] builds for an assembly. *)
Definition assembly_table (assembly : PromptAssembly) : renderable :=
  Table ("Prompt Assembly: " ++ pa_id assembly)
    ["Property"; "Value"]
    ([ ["ID"; pa_id assembly];
       ["Version"; pa_version assembly];
       ["Description"; pa_description assembly] ]
     ++ match pa_author assembly with
        | Some (String c a) => [ ["Author"; String c a] ]
        | Some EmptyString | None => []
        end
     ++ [ ["Variables"; str_of_nat (List.length (pa_variables assembly))];
          ["Imports"; str_of_nat (List.length (pa_imports assembly))];
          ["Composition Items";
           str_of_nat (List.length (pa_composition assembly))] ]).

Definition variables_table (assembly : PromptAssembly) : renderable :=
  Table "Variables" ["Name"; "Type"; "Required"; "Description"]
    (map (fun var =>
            [ var_name var; var_type var;
              if var_required var then "✓" else "✗";
              var_description var ])
         (pa_variables assembly)).

Definition imports_table (assembly : PromptAssembly) : renderable :=
  Table "Imports" ["Alias"; "Path/URL"]
    (map (fun item => [fst item; snd item]) (pa_imports assembly)).

Definition info_assembly (assembly : PromptAssembly) : cli unit :=
  console_print (assembly_table assembly) ;;;
  match pa_variables assembly with
  | [] => ret tt
  | _ :: _ => console_print (variables_table assembly)
  end ;;;
  match pa_imports assembly with
  | [] => ret tt
  | _ :: _ => console_print (imports_table assembly)
  end.

Definition info_body (pal_file : path) : cli unit :=
  if endswith (path_name pal_file) ".pal.lib" then
    library <- call (load_component_library env pal_file) ;;
    info_library library
  else
    assembly <- call (load_prompt_assembly env pal_file) ;;
    info_assembly assembly.

Definition info (pal_file : path) : cli unit :=
  guarded (info_body pal_file).

(** ** [evaluate] *)

(** The nested coroutine [run_evaluation_async]. *)
Definition run_evaluation_async (eval_file : path) (pal_file : option path)
           (model : string) (client : llm_client env) (temperature : Q)
           (max_tokens : option Z) (output : option path)
           (output_format : string) : cli unit :=
  result <- call (run_evaluation env client eval_file pal_file model
                    temperature max_tokens) ;;
  (if String.eqb output_format "json" then
     report_data <- call (generate_json_report env result) ;;
     match output with
     | Some out =>
         call (write_text env out (json_dumps env report_data)) ;;;
         console_print
           (Text ("[green]✓[/green] Evaluation report written to " ++ out))
     | None => print_json report_data
     end
   else
     report_text <- call (generate_console_report env result) ;;
     match output with
     | Some out =>
         call (write_text env out report_text) ;;;
         console_print
           (Text ("[green]✓[/green] Evaluation report written to " ++ out))
     | None => console_print (Text report_text)
     end) ;;;
  if Qeq_bool (pass_rate result) 1 then
    print (Text ("[green]✓ All " ++ str_of_nat (total_tests result)
                 ++ " tests passed![/green]"))
  else
    print (Text ("[yellow]⚠ " ++ str_of_nat (failed_tests result) ++ "/"
                 ++ str_of_nat (total_tests result)
                 ++ " tests failed[/yellow]")) ;;;
    (if match output with None => true | Some _ => false end
        || String.eqb output_format "json"
     then error_print_each
            (map (fun t => ("[red]✗[/red] " ++ test_case_name t)%string)
                 (filter (fun t => negb (passed t)) (test_results result)))
     else ret tt) ;;;
    sys_exit 1.

Definition evaluate_body (eval_file : path) (pal_file : option path)
           (model provider : string) (api_key : option string)
           (temperature : Q) (max_tokens : option Z)
           (output : option path) (output_format : string) : cli unit :=
  client <- make_client provider api_key
              "This is a mock response for evaluation." ;;
  run_evaluation_async eval_file pal_file model client temperature
    max_tokens output output_format.

Definition evaluate (eval_file : path) (pal_file : option path)
           (model provider : string) (api_key : option string)
           (temperature : Q) (max_tokens : option Z)
           (output : option path) (output_format : string) : cli unit :=
  guarded (evaluate_body eval_file pal_file model provider api_key
             temperature max_tokens output output_format).

(** ** The command line as a whole *)

(** A command of the [cli] group together with its parsed arguments. *)
Inductive command : Type :=
| Compile (pal_file : path) (vars : option string) (vars_file output : option path)
          (no_format : bool)
| Execute (pal_file : path) (model provider : string) (vars : option string)
          (vars_file : option path) (temperature : Q) (max_tokens : option Z)
          (api_key : option string) (log_file output : option path)
          (json_output : bool)
| Validate (p : path) (recursive : bool)
| Info (pal_file : path)
| Evaluate (eval_file : path) (pal_file : option path) (model provider : string)
           (api_key : option string) (temperature : Q) (max_tokens : option Z)
           (output : option path) (output_format : string).

(** The statements inside the command's [try:]. *)
Definition body (c : command) : cli unit :=
  match c with
  | Compile pal_file vars vars_file output no_format =>
      compile_body pal_file vars vars_file output no_format
  | Execute pal_file model provider vars vars_file temperature max_tokens
            api_key log_file output json_output =>
      execute_body pal_file model provider vars vars_file temperature
        max_tokens api_key log_file output json_output
  | Validate p recursive => validate_body p recursive
  | Info pal_file => info_body pal_file
  | Evaluate eval_file pal_file model provider api_key temperature max_tokens
             output output_format =>
      evaluate_body eval_file pal_file model provider api_key temperature
        max_tokens output output_format
  end.

(** Running a command: the function click dispatches to. *)
Definition run (c : command) : cli unit :=
  match c with
  | Compile pal_file vars vars_file output no_format =>
      compile pal_file vars vars_file output no_format
  | Execute pal_file model provider vars vars_file temperature max_tokens
            api_key log_file output json_output =>
      execute pal_file model provider vars vars_file temperature max_tokens
        api_key log_file output json_output
  | Validate p recursive => validate p recursive
  | Info pal_file => info pal_file
  | Evaluate eval_file pal_file model provider api_key temperature max_tokens
             output output_format =>
      evaluate eval_file pal_file model provider api_key temperature
        max_tokens output output_format
  end.
End Commands.
End Cli.

(* ===================================================================== *)
(** * The Resolver *)
(* ===================================================================== *)

Module Resolver.
Import Exceptions.

(** Modelled from the spec: [pal/core/resolver.py] and [pal/core/loader.py]
    are not part of this tree.  Section 4.2 of the specification: every
    assembly or library is a node of the import graph; for each import alias
    the target is loaded and resolution recurses into its own imports, with a
    visitation state per node (unvisited, in progress, done); re-entering a
    node in progress fails with a CircularDependencyError that carries the
    cycle path; completed nodes are memoized by identity (id and version);
    an import that does not load, or an alias declared twice, fails with a
    ResolverError. *)
Record artifact : Type := {
  art_id : string;
  art_version : string;
  art_imports : list (string * string)     (* alias, locator: as declared *)
}.

(** The identity of a node: id and version. *)
Definition identity : Type := (string * string)%type.

Definition ident (a : artifact) : identity := (art_id a, art_version a).

Definition identity_eqb (k k' : identity) : bool :=
  String.eqb (fst k) (fst k') && String.eqb (snd k) (snd k').

Definition visited (k : identity) (ks : list identity) : bool :=
  existsb (identity_eqb k) ks.

(** The state of one [resolve] call: the nodes that are done, most recently
    finished first, and the symbol table built so far. *)
Record state : Type := {
  done : list identity;
  symbols : list (string * artifact)
}.

(** The stack from the first occurrence of [k] on. *)
Fixpoint from_first (k : identity) (stack : list identity) : list identity :=
  match stack with
  | [] => []
  | x :: rest => if identity_eqb x k then x :: rest else from_first k rest
  end.

(** The cycle reported when the node [k], in progress, is entered again. *)
Definition cycle_path (stack : list identity) (k : identity) : list identity :=
  from_first k stack ++ [k].

Definition cycle_value (cycle : list identity) : pyvalue :=
  VList (map (fun k => VStr (fst k)) cycle).

Definition circular_dependency_error (cycle : list identity) : exception :=
  PALError_init PALCircularDependencyError
    ("Circular dependency detected: " ++ String.concat " -> " (map fst cycle))
    (Some [("cycle", cycle_value cycle)]).

Definition unresolvable_import_error (alias locator : string) (cause : exception)
  : exception :=
  PALError_init PALResolverError
    ("Cannot resolve import " ++ alias ++ " from " ++ locator)
    (Some [("alias", VStr alias); ("locator", VStr locator);
           ("error", VStr (exc_str cause))]).

Definition duplicate_alias_error (owner alias : string) : exception :=
  PALError_init PALResolverError
    ("Alias " ++ alias ++ " is declared twice in " ++ owner)
    (Some [("alias", VStr alias)]).

(** The first alias that is declared a second time. *)
Fixpoint duplicate_alias (imports : list (string * string)) : option string :=
  match imports with
  | [] => None
  | (alias, _) :: rest =>
      if existsb (String.eqb alias) (map fst rest) then Some alias
      else duplicate_alias rest
  end.

Section Resolve.
(** The files the Loader can read: locator and the artifact it parses to. *)
Variable files : list (string * artifact).

(** Modelled from the spec: the Loader of the missing [loader.py], as far as
    the Resolver uses it: a locator loads to an artifact or fails with a
    LoadError that carries the path. *)
Definition load (locator : string) : outcome artifact :=
  match dict_get locator files with
  | Some a => Returned a
  | None =>
      Raised (PALError_init PALLoadError ("File not found: " ++ locator)
                (Some [("path", VStr locator)]))
  end.

(** Modelled from the spec: the loop over a node's imports in the missing
    [resolver.py]: load the target, resolve it, record it under its alias;
    an import that does not load fails with a ResolverError. *)
Fixpoint resolve_imports (resolve_node : artifact -> state -> option (outcome state))
         (imports : list (string * string)) (st : state)
  : option (outcome state) :=
  match imports with
  | [] => Some (Returned st)
  | (alias, locator) :: rest =>
      match load locator with
      | Returned target =>
          match resolve_node target st with
          | Some (Returned st') =>
              resolve_imports resolve_node rest
                {| done := done st';
                   symbols := symbols st' ++ [(alias, target)] |}
          | other => other
          end
      | Raised cause =>
          Some (Raised (unresolvable_import_error alias locator cause))
      | Exited code => Some (Exited code)
      end
  end.

(** Modelled from the spec: the visit of one node in the missing
    [resolver.py], with [stack] holding the nodes in progress, outermost
    first, and [done st] the memoized ones.  [None]: the recursion went
    deeper than [fuel]. *)
Fixpoint resolve_node (fuel : nat) (stack : list identity) (node : artifact)
         (st : state) : option (outcome state) :=
  match fuel with
  | O => None
  | S fuel' =>
      if visited (ident node) stack then
        Some (Raised (circular_dependency_error (cycle_path stack (ident node))))
      else if visited (ident node) (done st) then
        Some (Returned st)
      else
        match duplicate_alias (art_imports node) with
        | Some alias => Some (Raised (duplicate_alias_error (art_id node) alias))
        | None =>
            match resolve_imports (resolve_node fuel' (stack ++ [ident node]))
                    (art_imports node) st with
            | Some (Returned st') =>
                Some (Returned {| done := ident node :: done st';
                                  symbols := symbols st' |})
            | other => other
            end
        end
  end.

(** Modelled from the spec: [resolve(assembly, loader)] of the missing
    [resolver.py].  No chain of nodes in progress is longer than the number
    of artifacts there are, which bounds the recursion. *)
Definition resolve (assembly : artifact) : option (outcome (list (string * artifact))) :=
  match resolve_node (S (S (List.length files))) [] assembly
          {| done := []; symbols := [] |} with
  | Some (Returned st) => Some (Returned (symbols st))
  | Some (Raised e) => Some (Raised e)
  | Some (Exited code) => Some (Exited code)
  | None => None
  end.

(** ** The import graph *)

(** The artifacts there are: the assembly being resolved and the files. *)
Definition universe (assembly : artifact) : list artifact :=
  assembly :: map snd files.

(** [a] imports [b]. *)
Definition imports_of (a b : artifact) : Prop :=
  exists alias locator,
    In (alias, locator) (art_imports a) /\ dict_get locator files = Some b.

(** [b] is reached from [a] along one import or more. *)
Inductive imports_trans : artifact -> artifact -> Prop :=
| it_step a b : imports_of a b -> imports_trans a b
| it_more a b c : imports_of a b -> imports_trans b c -> imports_trans a c.

(** The import graph of [assembly] contains a cycle: some node, the assembly
    itself or one it reaches, reaches itself. *)
Definition has_cycle (assembly : artifact) : Prop :=
  exists n, (n = assembly \/ imports_trans assembly n) /\ imports_trans n n.

(** A sequence of nodes, each importing the next. *)
Fixpoint import_chain (nodes : list artifact) : Prop :=
  match nodes with
  | a :: (b :: _) as rest => imports_of a b /\ import_chain rest
  | _ => True
  end.

(** What was in progress when a cycle was found: [before ++ n :: mid] is
    the chain of nodes in progress, from the assembly being resolved on,
    each importing the next, all distinct; its last node imports [n], a
    node of the chain, which is thereby entered again.  The cycle runs from
    [n] through [mid] back to [n]. *)
Definition reentered (assembly n : artifact) (mid : list artifact) : Prop :=
  exists before,
    hd_error (before ++ n :: mid) = Some assembly /\
    import_chain ((before ++ n :: mid) ++ [n]) /\
    NoDup (map ident (before ++ n :: mid)).

(** Well-formed input: every declared import loads, no artifact declares an
    alias twice, and an identity names one artifact. *)
Definition well_formed (assembly : artifact) : Prop :=
  (forall a alias locator,
      In a (universe assembly) -> In (alias, locator) (art_imports a) ->
      exists b, dict_get locator files = Some b) /\
  (forall a, In a (universe assembly) -> NoDup (map fst (art_imports a))) /\
  (forall a b, In a (universe assembly) -> In b (universe assembly) ->
               ident a = ident b -> a = b).
End Resolve.
End Resolver.

(* ===================================================================== *)
(** * The Executor *)
(* ===================================================================== *)

Module Executor.
Import Exceptions Schema.

(** Modelled from the spec: what the model-calling collaborator returns,
    [{response, input_tokens, output_tokens, finish_reason}] (section 6). *)
Record generation : Type := {
  gen_response : string;
  gen_input_tokens : option Z;
  gen_output_tokens : option Z;
  gen_finish_reason : string
}.

(** A call of the collaborator returns a generation or raises a fault. *)
Inductive generated : Type :=
| Generated (g : generation)
| Fault (e : exception).

(** The model-calling capability
    [generate(prompt, model, temperature, max_tokens, **kwargs)]. *)
Definition llm_client : Type :=
  string -> string -> Q -> option Z -> dict pyvalue -> generated.

(** One entry of the pricing table: a model name and the price of a
    thousand input and of a thousand output tokens. *)
Record pricing : Type := {
  priced_model : string;
  input_price : Q;
  output_price : Q
}.

(** Modelled from the spec: [pal/core/executor.py] is not part of this tree.
    Cost estimation, section 4.4: a pure pricing lookup that matches the
    model name by exact name, else by longest known prefix. *)
Definition exact_entry (table : list pricing) (model : string) : option pricing :=
  find (fun p => String.eqb (priced_model p) model) table.

(** The longer-named of [best] and [p], [best] on a tie. *)
Definition longer (best : option pricing) (p : pricing) : option pricing :=
  match best with
  | None => Some p
  | Some b =>
      if (String.length (priced_model b) <? String.length (priced_model p))%nat
      then Some p else Some b
  end.

Definition longest_prefix_entry (table : list pricing) (model : string)
  : option pricing :=
  fold_left (fun best p => if startswith model (priced_model p)
                           then longer best p else best)
            table None.

Definition pricing_entry (table : list pricing) (model : string) : option pricing :=
  match exact_entry table model with
  | Some p => Some p
  | None => longest_prefix_entry table model
  end.

(** Modelled from the spec: [estimate_cost(model, input_tokens,
    output_tokens)] of the missing [executor.py]: [None] when a token count
    is missing or no pricing entry matches.  The specification gives no
    formula for the cost of a matched model; it is taken here as the price
    of the tokens at the entry's rates per thousand. *)
Definition estimate_cost (table : list pricing) (model : string)
           (input_tokens output_tokens : option Z) : option Q :=
  match input_tokens, output_tokens with
  | Some i, Some o =>
      match pricing_entry table model with
      | Some p =>
          Some ((inject_Z i / 1000) * input_price p
                + (inject_Z o / 1000) * output_price p)%Q
      | None => None
      end
  | _, _ => None
  end.

(** A record of the audit log: the phase and what it is about. *)
Record log_record : Type := {
  log_event : string;
  log_prompt_id : string;
  log_model : string;
  log_success : option bool;
  log_error : option string
}.

(** The files of the audit log: what each target holds, line by line. *)
Definition log_files : Type := list (string * list log_record).

(** Modelled from the spec: the missing class [PromptExecutor]: its
    collaborator, its optional log target and its history. *)
Record executor : Type := {
  client : llm_client;
  log_file : option string;
  execution_history : list ExecutionResult
}.

Section Execute.
Variable pricing_table : list pricing.
(** Whether an append to the file at a path goes through. *)
Variable writable : string -> bool.
(** The clock: the timestamp of a call and the time it took. *)
Variable now : string.
Variable elapsed_ms : Q.

(** [_append_to_file]: the append itself, which raises on an unwritable
    path. *)
Definition append_to_file (logs : log_files) (target : string) (r : log_record)
  : outcome log_files :=
  if writable target then
    Returned (dict_set target
                (match dict_get target logs with
                 | Some lines => lines ++ [r]
                 | None => [r]
                 end) logs)
  else
    Raised (builtin_exception OSError ("Cannot write to " ++ target)).

(** Modelled from the spec: the best-effort log write of the missing
    [executor.py] ("log-write failures must be swallowed"): nothing is
    written without a log target, and a failed append is discarded. *)
Definition write_to_log_file (self : executor) (logs : log_files) (r : log_record)
  : log_files :=
  match log_file self with
  | None => logs
  | Some target =>
      match append_to_file logs target r with
      | Returned logs' => logs'
      | Raised _ | Exited _ => logs
      end
  end.

(** Modelled from the spec: the result of a call that succeeded (section
    3, ExecutionResult). *)
Definition succeeded (assembly : PromptAssembly) (model prompt : string)
           (g : generation) : ExecutionResult :=
  {| prompt_id := pa_id assembly;
     prompt_version := pa_version assembly;
     Schema.model := model;
     compiled_prompt := prompt;
     response := gen_response g;
     metadata := [("finish_reason", VStr (gen_finish_reason g))];
     execution_time_ms := elapsed_ms;
     timestamp := now;
     input_tokens := gen_input_tokens g;
     output_tokens := gen_output_tokens g;
     estimated_cost :=
       estimate_cost pricing_table model (gen_input_tokens g) (gen_output_tokens g);
     success := true;
     error := None |}.

(** Modelled from the spec: the result of a call whose collaborator raised:
    no success, the fault's message as error, an empty response. *)
Definition failed (assembly : PromptAssembly) (model prompt : string)
           (e : exception) : ExecutionResult :=
  {| prompt_id := pa_id assembly;
     prompt_version := pa_version assembly;
     Schema.model := model;
     compiled_prompt := prompt;
     response := "";
     metadata := [];
     execution_time_ms := elapsed_ms;
     timestamp := now;
     input_tokens := None;
     output_tokens := None;
     estimated_cost := None;
     success := false;
     error := Some (exc_str e) |}.

(** Appending a result to the history. *)
Definition record_result (self : executor) (result : ExecutionResult) : executor :=
  {| client := client self;
     log_file := log_file self;
     execution_history := execution_history self ++ [result] |}.

(** Modelled from the spec: [execute] of the missing [executor.py], the
    state machine of section 4.4: PENDING, the optional pre-execution log
    write, IN_FLIGHT (the collaborator is invoked), SUCCEEDED or FAILED, the
    optional post-execution log write, and the result appended to history.
    On a fault the failed result is recorded and an ExecutorError naming the
    assembly id is raised.  The value is the executor and the log files
    after the call, and how the call ended. *)
Definition execute (self : executor) (logs : log_files)
           (compiled : string) (assembly : PromptAssembly) (model : string)
           (temperature : Q) (max_tokens : option Z) (extra : dict pyvalue)
  : executor * log_files * outcome ExecutionResult :=
  let logs1 :=
    write_to_log_file self logs
      {| log_event := "prompt_execution_start";
         log_prompt_id := pa_id assembly; log_model := model;
         log_success := None; log_error := None |} in
  match client self compiled model temperature max_tokens extra with
  | Generated g =>
      let result := succeeded assembly model compiled g in
      let logs2 :=
        write_to_log_file self logs1
          {| log_event := "prompt_execution_complete";
             log_prompt_id := pa_id assembly; log_model := model;
             log_success := Some true; log_error := None |} in
      (record_result self result, logs2, Returned result)
  | Fault e =>
      let result := failed assembly model compiled e in
      let logs2 :=
        write_to_log_file self logs1
          {| log_event := "prompt_execution_error";
             log_prompt_id := pa_id assembly; log_model := model;
             log_success := Some false; log_error := Some (exc_str e) |} in
      (record_result self result, logs2,
       Raised (PALError_init PALExecutorError
                 ("Execution failed for " ++ pa_id assembly ++ ": " ++ exc_str e)
                 (Some [("prompt_id", VStr (pa_id assembly));
                        ("model", VStr model);
                        ("error", VStr (exc_str e))])))
  end.

(** Modelled from the spec: [get_execution_history()] of the missing
    [executor.py], a copy of the accumulated results. *)
Definition get_execution_history (self : executor) : list ExecutionResult :=
  execution_history self.

(** [clear_history()]. *)
Definition clear_history (self : executor) : executor :=
  {| client := client self; log_file := log_file self; execution_history := [] |}.
End Execute.
End Executor.

(* ===================================================================== *)
(** * Properties of the exception classes *)
(* ===================================================================== *)

Module ExceptionsFacts.
Import Exceptions.

Lemma issubclass_refl c : issubclass c c = true.
Proof. now destruct c. Qed.

Lemma issubclass_trans c d e :
  issubclass c d = true -> issubclass d e = true -> issubclass c e = true.
Proof. destruct c, d; try discriminate; destruct e; vm_compute; congruence. Qed.

Lemma issubclass_base c b : base c = Some b -> issubclass c b = true.
Proof. destruct c; simpl; intros H; inversion H; reflexivity. Qed.

(** A handler for a class catches the instances of every subclass of it. *)
Lemma catches_subclass handler parent e :
  issubclass parent handler = true ->
  isinstance e parent = true ->
  catches handler e = true.
Proof. unfold catches, isinstance. intros H1 H2. eapply issubclass_trans; eauto. Qed.

Lemma PALError_is_Exception e :
  isinstance e PALError = true -> catches Exception e = true.
Proof. apply catches_subclass. reflexivity. Qed.

(** C3.  Every class declared in [core.py] derives from [PALError], whose
    instances carry a message and a context mapping;
    [PALCircularDependencyError] is a subclass of [PALResolverError],
    [PALMissingVariableError] and [PALMissingComponentError] are subclasses
    of [PALCompilerError]; an [except] clause for a class catches the
    instances of its subclasses. *)
Theorem domain_errors_form_one_hierarchy :
  (forall c, In c domain_classes -> issubclass c PALError = true) /\
  (forall c message context,
      In c domain_classes ->
      isinstance (PALError_init c message context) PALError = true /\
      exc_str (PALError_init c message context) = message /\
      exists items, exc_context (PALError_init c message context) = Some items) /\
  base PALCircularDependencyError = Some PALResolverError /\
  base PALMissingVariableError = Some PALCompilerError /\
  base PALMissingComponentError = Some PALCompilerError /\
  issubclass PALCircularDependencyError PALResolverError = true /\
  issubclass PALMissingVariableError PALCompilerError = true /\
  issubclass PALMissingComponentError PALCompilerError = true /\
  (forall parent special e,
      issubclass special parent = true ->
      isinstance e special = true ->
      catches parent e = true).
Proof.
  assert (forall c, In c domain_classes -> issubclass c PALError = true) as Hall.
  { intros c Hc. simpl in Hc.
    repeat (destruct Hc as [<- | Hc]; [reflexivity|]). contradiction. }
  repeat split; try reflexivity.
  - exact Hall.
  - unfold isinstance. simpl. now apply Hall.
  - unfold PALError_init. simpl.
    destruct context as [[|kv d]|]; simpl; eauto.
  - intros parent special e Hsub Hinst. eapply catches_subclass; eauto.
Qed.

Lemma domain_errors_form_one_hierarchy_witness :
  issubclass PALMissingComponentError PALError = true /\
  catches PALResolverError
    (PALError_init PALCircularDependencyError "cycle" None) = true.
Proof.
  split.
  - apply (proj1 domain_errors_form_one_hierarchy). simpl. tauto.
  - apply (proj2 (proj2 (proj2 (proj2 (proj2 (proj2 (proj2 (proj2
             domain_errors_form_one_hierarchy))))))))
      with (special := PALCircularDependencyError); reflexivity.
Defined.

(** C9.  Constructed without a context, or with [None], an error of any
    class has the empty mapping as its context; the attribute is never
    [None], so its items can always be iterated; a mapping that is passed
    is the attribute's value. *)
Theorem PALError_context_defaults_to_empty (cls : exc_class) (message : string) :
  exc_context (PALError_init cls message None) = Some [] /\
  (forall context,
      exc_context (PALError_init cls message context) <> None /\
      exists items, context_items (PALError_init cls message context) = Some items) /\
  (forall d, exc_context (PALError_init cls message (Some d)) = Some d).
Proof.
  unfold context_items, PALError_init; simpl.
  split; [reflexivity|]. split.
  - intros [[|kv d]|]; simpl; split; try discriminate; eauto.
  - intros [|kv d]; reflexivity.
Qed.

End ExceptionsFacts.

(* ===================================================================== *)
(** * Properties of the command line *)
(* ===================================================================== *)

Module CliFacts.
Import Exceptions Schema Cli.

(** ** A sample installation *)

Definition dq : string := String (ascii_of_nat 34) EmptyString.

(** The text [{"name": "cli"}]. *)
Definition sample_vars : string :=
  "{" ++ dq ++ "name" ++ dq ++ ": " ++ dq ++ "cli" ++ dq ++ "}".

Definition sample_assembly : PromptAssembly :=
  {| pa_id := "greeting"; pa_version := "1.0.0";
     pa_description := "Greets"; pa_author := None;
     pa_variables := []; pa_imports := [];
     pa_composition := ["Hello {{ name }}"] |}.

Definition missing_variable : exception :=
  PALError_init PALMissingVariableError "Missing required variable: name"
    (Some [("variable", VStr "name"); ("prompt", VStr "greeting")]).

Definition sample_result : ExecutionResult :=
  {| prompt_id := "greeting"; prompt_version := "1.0.0"; model := "mock";
     compiled_prompt := "Hello"; response := "Hi"; metadata := [];
     execution_time_ms := 1; timestamp := "2024-01-01T00:00:00Z";
     input_tokens := Some 1%Z; output_tokens := Some 1%Z;
     estimated_cost := None; success := true; error := None |}.

(** What [rich] makes of the texts of the examples: the closing tag
    [[/b]], with no tag [b] open, raises a [MarkupError] that names the tag
    and its position; the other texts render. *)
Definition unmatched_closing_tag (text : string) : option exception :=
  match String.index 0 "[/b]" text with
  | Some position =>
      Some (builtin_exception MarkupError
              ("closing tag '[/b]' at position " ++ str_of_nat position
               ++ " doesn't match any open tag"))
  | None => None
  end.

(** The error of the Loader for the file [b].pal] of the directory [tpl[],
    which holds no well-formed assembly; section 4.1 of the specification:
    the error carries the offending path. *)
Definition unreadable_assembly : exception :=
  PALError_init PALLoadError "Failed to load tpl[/b].pal"
    (Some [("path", VStr "tpl[/b].pal")]).

(** The error of [open] for the directory [b]] of the directory [tpl[]. *)
Definition is_a_directory : exception :=
  builtin_exception OSError "[Errno 21] Is a directory: 'tpl[/b]'".

Definition sample_env : collaborators :=
  {| markup_error := unmatched_closing_tag;
     py_str := fun v => match v with VStr s => s | _ => "?" end;
     json_loads := fun s =>
       if String.eqb s sample_vars then Returned (VDict [("name", VStr "cli")])
       else Raised (builtin_exception JSONDecodeError "Expecting value");
     json_load_file := fun p =>
       if String.eqb p "vars.json"
       then Returned (VDict [("name", VStr "file"); ("tone", VStr "formal")])
       else if String.eqb p "broken.json"
       then Raised (builtin_exception JSONDecodeError
                      "Expecting value: line 1 column 1 (char 0)")
       else if String.eqb p "tpl[/b]" then Raised is_a_directory
       else Raised (builtin_exception OSError "No such file");
     json_dumps := fun _ => "{}";
     json_from_data := fun _ => Returned tt;
     update_from_iterable := fun _ _ =>
       Raised (builtin_exception TypeError "object is not iterable");
     write_text := fun _ _ => Returned tt;
     is_file := fun p => String.eqb p "a.pal";
     is_dir := fun _ => false;
     glob := fun _ _ => [];
     parent := fun _ => ".";
     relative_to := fun p _ => Returned p;
     format_1f := fun _ => "1.0";
     str_of_tokens := fun _ => "1";
     llm_client := unit;
     OpenAIClient := fun _ =>
       Raised (PALError_init PALExecutorError "OpenAI package not installed" None);
     AnthropicClient := fun _ =>
       Raised (PALError_init PALExecutorError "Anthropic package not installed" None);
     MockLLMClient := fun _ => Returned tt;
     compile_from_file_sync := fun p variables =>
       if String.eqb p "broken.pal" then Raised (builtin_exception KeyError "composition")
       else match dict_get "name" variables with
            | Some (VStr s) => Returned ("Hello " ++ s)%string
            | _ => Raised missing_variable
            end;
     load_prompt_assembly := fun p =>
       if String.eqb p "tpl[/b].pal" then Raised unreadable_assembly
       else Returned sample_assembly;
     load_prompt_assembly_async := fun _ => Returned sample_assembly;
     load_component_library := fun _ =>
       Raised (PALError_init PALLoadError "Not a library" None);
     compiler_compile := fun _ _ _ => Returned "Hello";
     analyze_template_variables := fun _ => Returned ["name"];
     executor_execute := fun _ _ _ _ _ _ _ => Returned sample_result;
     model_dump_json := fun _ => "{}";
     model_dump := fun _ => VDict [];
     run_evaluation := fun _ _ _ _ _ _ =>
       Returned {| pass_rate := 1; total_tests := 0; failed_tests := 0;
                   test_results := [] |};
     generate_json_report := fun _ => Returned (VDict []);
     generate_console_report := fun _ => Returned "" |}.

(** ** The helpers on small inputs *)

Example path_suffix_assembly : path_suffix "prompts/greet.pal" = ".pal".
Proof. reflexivity. Qed.

Example path_suffix_library :
  path_suffix "prompts/traits.pal.lib" = ".lib" /\
  endswith (path_name "prompts/traits.pal.lib") ".pal.lib" = true.
Proof. split; reflexivity. Qed.

Example path_suffix_hidden : path_suffix "prompts/.pal" = "".
Proof. reflexivity. Qed.

Example sorted_names : sorted ["tone"; "name"; "topic"] = ["name"; "tone"; "topic"].
Proof. reflexivity. Qed.

Example update_keeps_positions :
  dict_update [("a", VInt 1); ("b", VInt 2)] [("b", VInt 3); ("c", VInt 4)]
  = [("a", VInt 1); ("b", VInt 3); ("c", VInt 4)].
Proof. reflexivity. Qed.

(** Malformed [--vars] is reported by the command itself, not by
    [handle_error], and the exit code is 1. *)
Example compile_invalid_vars :
  compile sample_env "a.pal" (Some "{name") None None true
  = ([Stderr "[red]Invalid JSON in --vars:[/red] Expecting value"], Exited 1%Z).
Proof. reflexivity. Qed.

(** An exception that is not a PAL error gets the generic line. *)
Example compile_unexpected_error :
  compile sample_env "broken.pal" (Some sample_vars) None None true
  = ([Stderr "[red]Unexpected error:[/red] composition"], Exited 1%Z).
Proof. reflexivity. Qed.

(** ** Error reporting and exit codes *)

Lemma run_guarded env (c : command) : run env c = guarded env (body env c).
Proof. destruct c; reflexivity. Qed.

(** An exception that the closing clause catches is handed to
    [handle_error], and [sys.exit(1)] follows if that returns. *)
Lemma guarded_raised env {A} (evs : list event) (e : exception) :
  catches Exception e = true ->
  guarded env ((evs, Raised e) : cli A)
  = (evs ++ fst (@on_exception env A e), snd (@on_exception env A e)).
Proof.
  intros Hc. unfold guarded, try_except. rewrite Hc.
  now destruct (on_exception env e).
Qed.

Lemma bind_outcome {A B} (m : cli A) (k : A -> cli B) code :
  snd m <> Exited code -> (forall a, snd (k a) <> Exited code) ->
  snd (bind m k) <> Exited code.
Proof.
  intros Hm Hk. destruct m as [evs [a|e|c]]; simpl in *.
  - specialize (Hk a). now destruct (k a).
  - discriminate.
  - intros H. apply Hm. now inversion H.
Qed.

Lemma error_print_outcome env text :
  forall code, snd (error_print env text) <> Exited code.
Proof. intros code. unfold error_print. now destruct (markup_error env text). Qed.

Lemma error_print_each_outcome env texts :
  forall code, snd (error_print_each env texts) <> Exited code.
Proof.
  intros code. induction texts as [|text texts IH]; cbn [error_print_each].
  - discriminate.
  - apply bind_outcome; [apply error_print_outcome | intros _; exact IH].
Qed.

(** [handle_error] returns or raises; it never exits. *)
Lemma handle_error_outcome env e :
  forall code, snd (handle_error env e) <> Exited code.
Proof.
  intros code. unfold handle_error.
  destruct (isinstance e PALError); [|apply error_print_outcome].
  apply bind_outcome; [apply error_print_outcome|]. intros _.
  destruct (exc_context e) as [[|item items]|]; try discriminate.
  apply bind_outcome; [discriminate|]. intros _.
  apply error_print_each_outcome.
Qed.

(** Whatever an exception that left the body is, and whether or not its
    report can be printed, the exit code is 1. *)
Lemma exit_code_guarded_raised env {A} (evs : list event) (e : exception) :
  exit_code (guarded env ((evs, Raised e) : cli A)) = 1%Z.
Proof.
  unfold guarded, try_except.
  destruct (catches Exception e); [|reflexivity].
  unfold on_exception, bind.
  pose proof (handle_error_outcome env e) as H.
  destruct (handle_error env e) as [evs' [u|m|code]]; simpl in *;
    try reflexivity.
  now destruct (H code).
Qed.

(** C4.  The claim fails where the error's text is not well-formed console
    markup.  [pal info] on the file [b].pal] of the directory [tpl[], which
    does not load: the Loader's [PALLoadError], whose message and context
    hold the path [tpl[/b].pal], leaves the body of the command and is
    caught; [handle_error] puts the message into a markup text and [rich]
    raises on the closing tag [[/b]]; neither the message nor the context is
    printed, [sys.exit(1)] is not reached and the [MarkupError] leaves the
    command.  Likewise for an error that is no PAL error: [pal compile] with
    the directory [tpl[/b]] as variables file, where [open] raises an
    [OSError] whose message holds the path; the generic line is not
    printed. *)
Theorem markup_in_error_text_defeats_handle_error :
  (body sample_env (Info "tpl[/b].pal") = ([], Raised unreadable_assembly) /\
   isinstance unreadable_assembly PALError = true /\
   exc_str unreadable_assembly = "Failed to load tpl[/b].pal" /\
   exc_context unreadable_assembly = Some [("path", VStr "tpl[/b].pal")] /\
   console_output (run sample_env (Info "tpl[/b].pal")) = [] /\
   snd (run sample_env (Info "tpl[/b].pal"))
   = Raised (builtin_exception MarkupError
               "closing tag '[/b]' at position 36 doesn't match any open tag") /\
   ~ In (Stderr "[red]Error:[/red] Failed to load tpl[/b].pal")
        (console_output (run sample_env (Info "tpl[/b].pal")))) /\
  (body sample_env (Compile "a.pal" None (Some "tpl[/b]") None true)
   = ([], Raised is_a_directory) /\
   isinstance is_a_directory PALError = false /\
   isinstance is_a_directory Exception = true /\
   console_output (run sample_env (Compile "a.pal" None (Some "tpl[/b]") None true))
   = [] /\
   snd (run sample_env (Compile "a.pal" None (Some "tpl[/b]") None true))
   = Raised (builtin_exception MarkupError
               "closing tag '[/b]' at position 60 doesn't match any open tag")).
Proof. repeat split. intros []. Qed.

(** Where the texts render, the report is as C4 says: the same command on
    a file whose error text holds no markup. *)
Example compile_reports_domain_error :
  run sample_env (Compile "a.pal" None None None true)
  = ([ Stderr "[red]Error:[/red] Missing required variable: name";
       Stderr "[dim]Context:[/dim]";
       Stderr "  variable: name";
       Stderr "  prompt: greeting" ], Exited 1%Z).
Proof. reflexivity. Qed.

(** ** Validation *)

Lemma bind_returned {A B} (m : cli A) (k : A -> cli B) evs b :
  bind m k = (evs, Returned b) ->
  exists evs1 a evs2,
    m = (evs1, Returned a) /\ k a = (evs2, Returned b) /\ evs = evs1 ++ evs2.
Proof.
  destruct m as [evs1 [a|e|code]]; simpl; try discriminate.
  destruct (k a) as [evs2 r] eqn:Hk. intros H. inversion H; subst.
  exists evs1, a, evs2. auto.
Qed.

(** What the loop makes of a file: it is counted as valid or it is not. *)
Definition counted (env : collaborators) (file_path : path) : bool :=
  match check_file env file_path with
  | (_, Returned (Some v)) => counts_as_valid v
  | _ => false
  end.

Lemma check_files_count env root files :
  forall rows valid evs rows' valid',
    check_files env root files rows valid = (evs, Returned (rows', valid')) ->
    (valid' <= valid + List.length files)%nat /\
    (forall f, In f files -> counted env f = false ->
               (valid' < valid + List.length files)%nat).
Proof.
  induction files as [|f files IH]; intros rows valid evs rows' valid' H;
    cbn [check_files] in H; cbn [List.length].
  - inversion H; subst. split; [lia | contradiction].
  - apply bind_returned in H. destruct H as (evs1 & v & evs2 & Hcheck & Hrest & _).
    destruct v as [v|].
    + apply bind_returned in Hrest.
      destruct Hrest as (evs3 & shown & evs4 & _ & Hrest & _).
      apply IH in Hrest. destruct Hrest as [Hle Hlt].
      assert (counted env f = counts_as_valid v) as Hcounted.
      { unfold counted. now rewrite Hcheck. }
      destruct (counts_as_valid v); split; try lia.
      intros g [<- | Hg] Hg'; [congruence|]. specialize (Hlt g Hg Hg'). lia.
    + apply IH in Hrest. destruct Hrest as [Hle Hlt]. split; [lia|].
      intros g _ _. lia.
Qed.

Lemma check_file_warning env file_path prompt_assembly template_vars :
  path_suffix file_path = ".pal" ->
  load_prompt_assembly env file_path = Returned prompt_assembly ->
  analyze_template_variables env prompt_assembly = Returned template_vars ->
  undefined_variables prompt_assembly template_vars <> [] ->
  check_file env file_path
  = ([], Returned (Some {| file_type := "Assembly";
                           status := status_warning;
                           issues := "Undefined variables: "
                                     ++ String.concat ", "
                                          (sorted (undefined_variables
                                                     prompt_assembly template_vars));
                           counts_as_valid := false |})).
Proof.
  intros Hsuf Hload Han Hund. unfold check_file.
  rewrite Hsuf. simpl. rewrite Hload. simpl. rewrite Han. simpl.
  destruct (undefined_variables prompt_assembly template_vars); [congruence|].
  reflexivity.
Qed.




(** ** Variables from [--vars-file] and [--vars] *)

Lemma load_variables_both env (vars : string) (vars_file : path)
      (from_file from_vars : dict pyvalue) :
  vars <> "" ->
  json_load_file env vars_file = Returned (VDict from_file) ->
  json_loads env vars = Returned (VDict from_vars) ->
  load_variables env (Some vars) (Some vars_file)
  = ([], Returned (dict_update (dict_update [] from_file) from_vars)).
Proof.
  intros Hne Hfile Hvars. unfold load_variables.
  destruct vars as [|c vars]; [congruence|].
  rewrite Hfile. simpl. rewrite Hvars. reflexivity.
Qed.

(** C10.  With both [--vars-file] and [--vars] given, each a JSON object,
    [compile] and [execute] go on with the variables of the file updated
    with those of [--vars]: a key of [--vars] has the value [--vars] gives
    it, whatever the file says, and any other key keeps the file's value. *)
Theorem vars_option_overrides_vars_file
        (env : collaborators) (vars : string) (vars_file : path)
        (from_file from_vars : dict pyvalue) :
  vars <> "" ->
  json_load_file env vars_file = Returned (VDict from_file) ->
  json_loads env vars = Returned (VDict from_vars) ->
  dict_wf from_vars ->
  let variables := dict_update (dict_update [] from_file) from_vars in
  (forall pal_file output no_format,
      compile_body env pal_file (Some vars) (Some vars_file) output no_format
      = compile_with env pal_file variables output no_format) /\
  (forall pal_file model provider temperature max_tokens api_key log_file
          output json_output,
      execute_body env pal_file model provider (Some vars) (Some vars_file)
        temperature max_tokens api_key log_file output json_output
      = bind (make_client env provider api_key
                "This is a mock response from the PAL system.")
             (fun client =>
                run_execution env pal_file model variables client temperature
                  max_tokens log_file output json_output)) /\
  (forall key value,
      dict_get key from_vars = Some value ->
      dict_get key variables = Some value) /\
  (forall key,
      dict_get key from_vars = None ->
      dict_get key variables = dict_get key (dict_update [] from_file)).
Proof.
  intros Hne Hfile Hvars Hwf variables.
  pose proof (load_variables_both env vars vars_file _ _ Hne Hfile Hvars) as Hload.
  fold variables in Hload.
  repeat split.
  - intros. unfold compile_body. rewrite Hload. unfold bind.
    now destruct (compile_with env pal_file variables output no_format).
  - intros. unfold execute_body. rewrite Hload. unfold bind at 1.
    match goal with |- (let (_, _) := ?m in _) = _ => now destruct m end.
  - intros key value Hget. unfold variables.
    rewrite dict_get_update by assumption. now rewrite Hget.
  - intros key Hget. unfold variables.
    rewrite dict_get_update by assumption. now rewrite Hget.
Qed.

Lemma vars_option_overrides_vars_file_witness :
  dict_get "name"
    (dict_update (dict_update [] [("name", VStr "file"); ("tone", VStr "formal")])
                 [("name", VStr "cli")])
  = Some (VStr "cli") /\
  console_output (compile sample_env "a.pal" (Some sample_vars) (Some "vars.json")
                    None true)
  = [Stdout (Text "Hello cli")].
Proof.
  pose proof (vars_option_overrides_vars_file sample_env sample_vars "vars.json"
                [("name", VStr "file"); ("tone", VStr "formal")]
                [("name", VStr "cli")]) as H.
  assert (sample_vars <> "") as Hne by discriminate.
  assert (dict_wf [("name", VStr "cli")]) as Hwf.
  { unfold dict_wf. simpl. repeat constructor. simpl. tauto. }
  specialize (H Hne eq_refl eq_refl Hwf).
  destruct H as [Hcompile [_ [Hkey _]]].
  split.
  - apply Hkey. reflexivity.
  - unfold compile. rewrite Hcompile. reflexivity.
Defined.

End CliFacts.

(* ===================================================================== *)
(** * Properties of the Executor *)
(* ===================================================================== *)

Module ExecutorFacts.
Import Exceptions Schema Executor.

(** ** A sample executor *)

Definition sample_table : list pricing :=
  [ {| priced_model := "gpt-4"; input_price := 3 # 100; output_price := 6 # 100 |};
    {| priced_model := "gpt-4-turbo"; input_price := 1 # 100; output_price := 3 # 100 |};
    {| priced_model := "claude-3-sonnet";
       input_price := 3 # 1000; output_price := 15 # 1000 |} ].

Definition sample_assembly : PromptAssembly :=
  {| pa_id := "test-prompt"; pa_version := "1.0.0";
     pa_description := "Test prompt"; pa_author := None;
     pa_variables := []; pa_imports := [];
     pa_composition := ["Test prompt content"] |}.

Definition failing_client : llm_client :=
  fun _ _ _ _ _ => Fault (builtin_exception Exception "Test error").

Definition mock_client : llm_client :=
  fun _ _ _ _ _ =>
    Generated {| gen_response := "Test response";
                 gen_input_tokens := Some 2%Z; gen_output_tokens := Some 2%Z;
                 gen_finish_reason := "stop" |}.

Definition new_executor (c : llm_client) (log : option string) : executor :=
  {| client := c; log_file := log; execution_history := [] |}.

Definition unwritable (target : string) : bool := false.

(** The executor after a call, and how the call ended. *)
Definition after (r : executor * log_files * outcome ExecutionResult) : executor :=
  fst (fst r).

Definition ended (r : executor * log_files * outcome ExecutionResult)
  : outcome ExecutionResult := snd r.

Section Facts.
Variable pricing_table : list pricing.
Variable writable : string -> bool.
Variable now : string.
Variable elapsed_ms : Q.


(** C1.  When the collaborator raises a fault, [execute] builds a failed
    result (no success, the fault's message as error, an empty response),
    appends it to the history and raises an ExecutorError whose message
    names the assembly id; [get_execution_history] then contains the failed
    result. *)
Theorem execute_records_fault_and_raises
        (self : executor) (logs : log_files) (compiled : string)
        (assembly : PromptAssembly) (model : string) (temperature : Q)
        (max_tokens : option Z) (extra : dict pyvalue) (fault : exception) :
  client self compiled model temperature max_tokens extra = Fault fault ->
  let r := execute pricing_table writable now elapsed_ms self logs compiled
             assembly model temperature max_tokens extra in
  let result := failed now elapsed_ms assembly model compiled fault in
  success result = false /\
  error result = Some (exc_str fault) /\
  response result = "" /\
  execution_history (after r) = execution_history self ++ [result] /\
  In result (get_execution_history (after r)) /\
  exists err,
    ended r = Raised err /\
    exc_type err = PALExecutorError /\
    isinstance err PALExecutorError = true /\
    exists rest,
      exc_str err = ("Execution failed for " ++ pa_id assembly ++ rest)%string.
Proof.
  intros Hfault r result. subst r. unfold execute. rewrite Hfault.
  unfold after, ended, get_execution_history; simpl.
  repeat split.
  - apply in_or_app. right. now left.
  - eexists. repeat split. eexists. reflexivity.
Qed.

(** C6.  Every call of [execute] appends exactly one result to the
    history, whether it returns or raises. *)
Theorem execute_appends_exactly_one
        (self : executor) (logs : log_files) (compiled : string)
        (assembly : PromptAssembly) (model : string) (temperature : Q)
        (max_tokens : option Z) (extra : dict pyvalue) :
  let r := execute pricing_table writable now elapsed_ms self logs compiled
             assembly model temperature max_tokens extra in
  (exists result,
      execution_history (after r) = execution_history self ++ [result]) /\
  List.length (execution_history (after r))
  = S (List.length (execution_history self)).
Proof.
  intros r. subst r. unfold execute, after.
  destruct (client self compiled model temperature max_tokens extra); simpl;
    (split; [eexists; reflexivity | rewrite length_app; simpl; lia]).
Qed.

End Facts.

(** C8.  With a log target configured, whether the appends to it go
    through or fail changes neither how [execute] ends nor the executor it
    leaves: a call whose collaborator returns a generation returns a
    successful result, and in every case the result is appended to the
    history. *)
Theorem log_write_failures_are_swallowed
        (pricing_table : list pricing) (writable : string -> bool)
        (now : string) (elapsed_ms : Q)
        (self : executor) (logs : log_files) (compiled : string)
        (assembly : PromptAssembly) (model : string) (temperature : Q)
        (max_tokens : option Z) (extra : dict pyvalue) (target : string) :
  log_file self = Some target ->
  let r := execute pricing_table writable now elapsed_ms self logs compiled
             assembly model temperature max_tokens extra in
  (forall g,
      client self compiled model temperature max_tokens extra = Generated g ->
      exists result,
        ended r = Returned result /\ success result = true /\ error result = None /\
        execution_history (after r) = execution_history self ++ [result]) /\
  (exists result,
      execution_history (after r) = execution_history self ++ [result]) /\
  (forall writable' logs',
      let r' := execute pricing_table writable' now elapsed_ms self logs' compiled
                  assembly model temperature max_tokens extra in
      ended r' = ended r /\ after r' = after r).
Proof.
  intros Htarget r. subst r. unfold execute, after, ended.
  destruct (client self compiled model temperature max_tokens extra) as [g|e];
    simpl; repeat split.
  - intros g' Hg. inversion Hg; subst. eexists. repeat split.
  - eexists. reflexivity.
  - intros g' Hg. discriminate.
  - eexists. reflexivity.
Qed.

Lemma execute_records_fault_and_raises_witness :
  List.length
    (get_execution_history
       (after (execute sample_table unwritable "t0" 1
                 (new_executor failing_client None) [] "Test prompt"
                 sample_assembly "test-model" (7 # 10) None []))) = 1%nat.
Proof.
  pose proof (execute_records_fault_and_raises sample_table unwritable "t0" 1
                (new_executor failing_client None) [] "Test prompt"
                sample_assembly "test-model" (7 # 10) None []
                (builtin_exception Exception "Test error") eq_refl) as H.
  destruct H as [_ [_ [_ [Hhist _]]]].
  unfold get_execution_history. rewrite Hhist. reflexivity.
Defined.

Lemma log_write_failures_are_swallowed_witness :
  exists result,
    ended (execute sample_table unwritable "t0" 1
             (new_executor mock_client (Some "nonexistent/test.log")) []
             "Test prompt" sample_assembly "test-model" (7 # 10) None [])
    = Returned result /\ success result = true.
Proof.
  pose proof (log_write_failures_are_swallowed sample_table unwritable "t0" 1
                (new_executor mock_client (Some "nonexistent/test.log")) []
                "Test prompt" sample_assembly "test-model" (7 # 10) None []
                "nonexistent/test.log" eq_refl) as [H _].
  destruct (H _ eq_refl) as [result [Hend [Hsucc _]]].
  exists result. split; assumption.
Defined.

End ExecutorFacts.

(* ===================================================================== *)
(** * Properties of the Resolver *)
(* ===================================================================== *)

Module ResolverFacts.
Import Exceptions Resolver.

Lemma identity_eqb_eq (k k' : identity) : identity_eqb k k' = true <-> k = k'.
Proof.
  destruct k as [i v], k' as [i' v']. unfold identity_eqb; simpl.
  rewrite andb_true_iff, !String.eqb_eq. split.
  - intros [-> ->]. reflexivity.
  - intros H. inversion H. auto.
Qed.

Lemma visited_In (k : identity) (ks : list identity) :
  visited k ks = true <-> In k ks.
Proof.
  unfold visited. rewrite existsb_exists. split.
  - intros [x [Hin Heq]]. apply identity_eqb_eq in Heq. now subst.
  - intros Hin. exists k. split; [assumption | now apply identity_eqb_eq].
Qed.

Lemma visited_not_In (k : identity) (ks : list identity) :
  visited k ks = false <-> ~ In k ks.
Proof.
  rewrite <- visited_In. destruct (visited k ks); split; congruence.
Qed.

Lemma duplicate_alias_none (imports : list (string * string)) :
  NoDup (map fst imports) -> duplicate_alias imports = None.
Proof.
  induction imports as [|[alias locator] rest IH]; simpl; intros Hnd;
    [reflexivity|].
  inversion Hnd as [|? ? Hnotin Hnd']; subst.
  destruct (existsb (String.eqb alias) (map fst rest)) eqn:E; [|now apply IH].
  apply existsb_exists in E. destruct E as [x [Hin Heq]].
  apply String.eqb_eq in Heq. subst x. contradiction.
Qed.

(** The first occurrence of an identity in a stack of nodes splits it. *)
Lemma from_first_split (k : identity) (nodes : list artifact) :
  In k (map ident nodes) ->
  exists before n after,
    nodes = before ++ n :: after /\ ident n = k /\
    from_first k (map ident nodes) = map ident (n :: after).
Proof.
  induction nodes as [|a nodes IH]; simpl; intros Hin; [contradiction|].
  destruct (identity_eqb (ident a) k) eqn:E.
  - apply identity_eqb_eq in E. exists [], a, nodes. auto.
  - destruct Hin as [Heq | Hin].
    + apply identity_eqb_eq in Heq. congruence.
    + destruct (IH Hin) as (before & n & after & -> & Hn & Hfrom).
      exists (a :: before), n, after. auto.
Qed.

Section Graph.
Variable files : list (string * artifact).
Variable assembly : artifact.
Hypothesis Hwf : well_formed files assembly.

Lemma imports_of_universe a b :
  imports_of files a b -> In b (universe files assembly).
Proof.
  intros (alias & locator & _ & Hget). right.
  apply dict_get_In in Hget. now apply (in_map snd) in Hget.
Qed.

Lemma imports_trans_universe a b :
  imports_trans files a b -> In b (universe files assembly).
Proof. induction 1; eauto using imports_of_universe. Qed.

Lemma import_chain_snoc nodes a b :
  import_chain files (nodes ++ [a]) -> imports_of files a b ->
  import_chain files ((nodes ++ [a]) ++ [b]).
Proof.
  induction nodes as [|x nodes IH]; simpl; intros Hchain Hab; [auto|].
  destruct nodes as [|y nodes]; simpl in *.
  - tauto.
  - destruct Hchain as [Hxy Hrest]. split; [assumption | now apply IH].
Qed.

(** The nodes that are done, most recent first: each was added after all
    the nodes it imports. *)
Inductive finished : list identity -> Prop :=
| finished_nil : finished []
| finished_cons k ks :
    finished ks -> ~ In k ks ->
    (forall a b, In a (universe files assembly) -> ident a = k ->
                 imports_of files a b -> In (ident b) ks) ->
    finished (k :: ks).

Lemma finished_closed ks :
  finished ks ->
  forall a b, In a (universe files assembly) -> In (ident a) ks ->
              imports_of files a b -> In (ident b) ks.
Proof.
  induction 1 as [|k ks Hfin IH Hnotin Hedges]; intros a b Ha Hin Hab;
    [contradiction|].
  right. destruct Hin as [Hk | Hin]; eauto.
Qed.

Lemma finished_closed_trans ks a b :
  finished ks -> In a (universe files assembly) -> In (ident a) ks ->
  imports_trans files a b -> In (ident b) ks.
Proof.
  intros Hfin Ha Hin Hab. induction Hab as [a b Hab | a b c Hab Hbc IH].
  - eapply finished_closed; eauto.
  - apply IH; [eapply imports_of_universe | eapply finished_closed]; eauto.
Qed.

(** No node that is done lies on a cycle. *)
Lemma finished_acyclic ks :
  finished ks ->
  forall a, In a (universe files assembly) -> In (ident a) ks ->
            ~ imports_trans files a a.
Proof.
  induction 1 as [|k ks Hfin IH Hnotin Hedges]; intros a Ha Hin Hcycle;
    [contradiction|].
  destruct Hin as [Hk | Hin]; [|now apply (IH a)].
  apply Hnotin. rewrite Hk.
  inversion Hcycle as [x y Hab | x b y Hab Hbc]; subst.
  - eapply Hedges; eauto.
  - apply (finished_closed_trans ks b a); eauto using imports_of_universe.
Qed.

(** The error for the chain [chain] of nodes in progress, whose last node
    imports the node [n] of the chain. *)
Definition cycle_at (chain : list artifact) (e : exception) : Prop :=
  exists before n mid,
    chain = before ++ n :: mid /\
    e = circular_dependency_error (map ident (n :: mid ++ [n])) /\
    import_chain files (chain ++ [n]) /\
    NoDup (map ident chain).

(** What a call of [resolve_node], or a run over imports, may end with;
    [deeper] says which chains in progress an error may come from. *)
Definition visit_post (stack : list identity) (st : state)
           (must_be_done : list identity) (deeper : list artifact -> Prop)
           (r : option (outcome state)) : Prop :=
  match r with
  | Some (Returned st') =>
      finished (done st') /\
      incl (done st) (done st') /\
      incl must_be_done (done st') /\
      (forall k, In k (done st') -> In k (done st) \/ ~ In k stack)
  | Some (Raised e) => exists chain, deeper chain /\ cycle_at chain e
  | Some (Exited _) | None => False
  end.

Lemma load_declared a alias locator :
  In a (universe files assembly) -> In (alias, locator) (art_imports a) ->
  exists b, load files locator = Returned b /\ imports_of files a b.
Proof.
  intros Ha Hin. destruct Hwf as [Hload _].
  destruct (Hload a alias locator Ha Hin) as [b Hb].
  exists b. unfold load. rewrite Hb. split; [reflexivity|].
  exists alias, locator. auto.
Qed.

Lemma stack_bounded (nodes : list artifact) :
  Forall (fun a => In a (universe files assembly)) nodes ->
  NoDup (map ident nodes) ->
  (List.length nodes <= List.length (universe files assembly))%nat.
Proof.
  intros Hall Hnd.
  rewrite <- (length_map ident nodes), <- (length_map ident (universe files assembly)).
  apply NoDup_incl_length; [assumption|].
  intros k Hk. apply in_map_iff in Hk. destruct Hk as [a [<- Ha]].
  apply in_map. rewrite Forall_forall in Hall. now apply Hall.
Qed.

Lemma resolve_node_post (fuel : nat) :
  forall (nodes : list artifact) (node : artifact) (st : state),
    (List.length (universe files assembly) < List.length nodes + fuel)%nat ->
    Forall (fun a => In a (universe files assembly)) nodes ->
    In node (universe files assembly) ->
    NoDup (map ident nodes) ->
    import_chain files (nodes ++ [node]) ->
    finished (done st) ->
    visit_post (map ident nodes) st [ident node]
      (fun chain => chain = nodes \/ exists rest, chain = nodes ++ node :: rest)
      (resolve_node files fuel (map ident nodes) node st).
Proof.
  induction fuel as [|fuel IH]; intros nodes node st Hfuel Hall Hnode Hnd Hchain Hfin.
  - pose proof (stack_bounded nodes Hall Hnd). lia.
  - cbn [resolve_node].
    destruct (visited (ident node) (map ident nodes)) eqn:Hstack.
    + (* the node is in progress: a cycle *)
      apply visited_In in Hstack.
      destruct (from_first_split _ _ Hstack)
        as (before & n & after & Hnodes & Hn & Hfrom).
      assert (n = node) as ->.
      { destruct Hwf as [_ [_ Hident]]. apply Hident; [|assumption|assumption].
        rewrite Forall_forall in Hall. apply Hall. rewrite Hnodes.
        apply in_or_app. right. now left. }
      simpl. exists nodes. split; [now left|].
      exists before, node, after. repeat split; try assumption.
      unfold cycle_path. rewrite Hfrom. f_equal.
      change [ident node] with (map ident [node]).
      now rewrite <- map_app.
    + apply visited_not_In in Hstack.
      destruct (visited (ident node) (done st)) eqn:Hdone.
      * (* memoized *)
        apply visited_In in Hdone. simpl. repeat split; auto using incl_refl.
        intros k [<- | []]. assumption.
      * apply visited_not_In in Hdone.
        rewrite duplicate_alias_none
          by (destruct Hwf as [_ [Halias _]]; now apply Halias).
        assert (forall imports st0,
                   incl imports (art_imports node) ->
                   finished (done st0) ->
                   visit_post (map ident (nodes ++ [node])) st0
                     (map ident
                        (flat_map (fun item =>
                                     match dict_get (snd item) files with
                                     | Some b => [b]
                                     | None => []
                                     end) imports))
                     (fun chain => exists rest, chain = (nodes ++ [node]) ++ rest)
                     (resolve_imports files
                        (resolve_node files fuel (map ident nodes ++ [ident node]))
                        imports st0)) as Himports.
        { induction imports as [|[alias locator] rest IHrest];
            intros st0 Hincl Hfin0.
          - simpl. repeat split; auto using incl_refl. intros k [].
          - cbn [resolve_imports].
            destruct (load_declared node alias locator Hnode
                        (Hincl _ (or_introl eq_refl))) as [b [Hload Hedge]].
            rewrite Hload.
            assert (dict_get locator files = Some b) as Hget.
            { unfold load in Hload.
              destruct (dict_get locator files); inversion Hload; reflexivity. }
            pose proof (IH (nodes ++ [node]) b st0) as Hb.
            rewrite map_app in Hb. simpl map in Hb.
            specialize (Hb ltac:(rewrite length_app;
                                 change (List.length [node]) with 1%nat; lia)).
            specialize (Hb ltac:(apply Forall_app; split;
                                 [assumption | now constructor])).
            specialize (Hb (imports_of_universe _ _ Hedge)).
            specialize (Hb ltac:(apply NoDup_app;
                                 [assumption | repeat constructor; simpl; tauto |
                                  intros x Hx [<- | []]; contradiction])).
            specialize (Hb (import_chain_snoc _ _ _ Hchain Hedge) Hfin0).
            destruct (resolve_node files fuel (map ident nodes ++ [ident node]) b st0)
              as [[st1|e|code]|]; simpl in Hb; try contradiction;
              [|destruct Hb as [chain [Hdeeper Hcycle]]; simpl; exists chain;
                split; [|exact Hcycle];
                destruct Hdeeper as [-> | [more ->]];
                [exists []; now rewrite app_nil_r | eauto]].
            destruct Hb as (Hfin1 & Hincl1 & Hb1 & Hnew1).
            specialize (IHrest {| done := done st1;
                                  symbols := symbols st1 ++ [(alias, b)] |}
                          ltac:(intros x Hx; apply Hincl; now right) Hfin1).
            destruct (resolve_imports files _ rest _) as [[st2|e|code]|];
              simpl in IHrest |- *; try contradiction; [|exact IHrest].
            destruct IHrest as (Hfin2 & Hincl2 & Hrest2 & Hnew2).
            simpl in Hincl2, Hnew2. rewrite map_app in Hnew2. simpl in Hnew2.
            repeat split.
            + assumption.
            + intros k Hk. auto.
            + rewrite Hget. simpl. intros k [<- | Hk].
              * apply Hincl2, Hb1. now left.
              * now apply Hrest2.
            + intros k Hk. rewrite map_app. simpl.
              destruct (Hnew2 k Hk) as [Hk1 | Hk1]; [|now right].
              apply Hnew1 in Hk1. assumption. }
        specialize (Himports (art_imports node) st (incl_refl _) Hfin).
        destruct (resolve_imports files _ (art_imports node) st)
          as [[st'|e|code]|]; simpl in Himports |- *; try contradiction;
          [|destruct Himports as [chain [[more ->] Hcycle]]; exists
              ((nodes ++ [node]) ++ more); split; [|exact Hcycle];
            right; exists more; now rewrite <- app_assoc].
        destruct Himports as (Hfin' & Hincl' & Hall' & Hnew').
        assert (~ In (ident node) (done st')) as Hfresh.
        { intros Hin. destruct (Hnew' _ Hin) as [H | H]; [contradiction|].
          apply H. rewrite map_app. apply in_or_app. right. now left. }
        repeat split.
        -- constructor; [assumption | assumption |].
           intros a b Ha Hident Hab.
           assert (a = node) as ->.
           { destruct Hwf as [_ [_ Huniq]]. now apply Huniq. }
           apply Hall'. destruct Hab as (alias & locator & Hin & Hget).
           apply in_map. apply in_flat_map. exists (alias, locator).
           split; [assumption|]. simpl. rewrite Hget. now left.
        -- intros k Hk. right. now apply Hincl'.
        -- intros k [<- | []]. now left.
        -- intros k [<- | Hk]; [now right|].
           destruct (Hnew' k Hk) as [H | H]; [now left|].
           right. intros Hin. apply H. rewrite map_app. apply in_or_app. now left.
Qed.

End Graph.

(** ** The scenario of the specification: [B] imports [C], [C] imports [B] *)

Definition assembly_B : artifact :=
  {| art_id := "B"; art_version := "1.0.0"; art_imports := [("c", "c.pal")] |}.

Definition assembly_C : artifact :=
  {| art_id := "C"; art_version := "1.0.0"; art_imports := [("b", "b.pal")] |}.

Definition sample_files : list (string * artifact) :=
  [("b.pal", assembly_B); ("c.pal", assembly_C)].

Lemma sample_well_formed : well_formed sample_files assembly_B.
Proof.
  unfold well_formed, universe; simpl. repeat split.
  - intros a alias locator Ha Hin.
    destruct Ha as [<- | [<- | [<- | []]]]; simpl in Hin;
      destruct Hin as [Heq | []]; inversion Heq; subst; simpl; eauto.
  - intros a Ha.
    destruct Ha as [<- | [<- | [<- | []]]]; simpl;
      repeat constructor; simpl; tauto.
  - intros a b Ha Hb Hident.
    destruct Ha as [<- | [<- | [<- | []]]];
      destruct Hb as [<- | [<- | [<- | []]]];
      try reflexivity; discriminate.
Qed.

Lemma sample_has_cycle : has_cycle sample_files assembly_B.
Proof.
  exists assembly_B. split; [now left|].
  apply it_more with (b := assembly_C).
  - exists "c", "c.pal". simpl. auto.
  - apply it_step. exists "b", "b.pal". simpl. auto.
Qed.

(** An assembly that imports itself, after an import that does not load. *)
Definition assembly_A : artifact :=
  {| art_id := "A"; art_version := "1.0.0";
     art_imports := [("base", "base.pal.lib"); ("self", "a.pal")] |}.




(** The scenario of section 8: the cycle path is [B, C, B]. *)
Example resolve_B_C_B :
  resolve sample_files assembly_B
  = Some (Raised (circular_dependency_error
                    [("B", "1.0.0"); ("C", "1.0.0"); ("B", "1.0.0")])) /\
  exc_context (circular_dependency_error
                 [("B", "1.0.0"); ("C", "1.0.0"); ("B", "1.0.0")])
  = Some [("cycle", VList [VStr "B"; VStr "C"; VStr "B"])].
Proof. split; reflexivity. Qed.

(** A self-import: the cycle path is [A, A]. *)
Example resolve_self_import :
  let A := {| art_id := "A"; art_version := "1"; art_imports := [("me", "a.pal")] |} in
  resolve [("a.pal", A)] A
  = Some (Raised (circular_dependency_error [("A", "1"); ("A", "1")])).
Proof. reflexivity. Qed.

End ResolverFacts.

(* ===================================================================== *)
(** * [pal/__init__.py] *)
(* ===================================================================== *)

Module Package.
Import Exceptions.

(** The exception classes that [__init__.py] imports from
    [exceptions.core] and lists in [__all__]. *)
Definition exported_errors : list exc_class :=
  [ PALError; PALValidationError; PALLoadError; PALResolverError;
    PALCompilerError; PALExecutorError ].

End Package.

(* ===================================================================== *)
(** * More on the exception classes *)
(* ===================================================================== *)

Module ExceptionsExtras.
Import Exceptions.

(** X1.  [except PALError] catches exactly the instances of the nine
    classes that [core.py] declares: no builtin exception is a PAL error. *)
Theorem PALError_catches_exactly_domain_classes (e : exception) :
  catches PALError e = true <-> In (exc_type e) domain_classes.
Proof.
  unfold catches, isinstance.
  destruct (exc_type e); simpl; split; intros H;
    try reflexivity; try discriminate H;
    try (repeat (destruct H as [H | H]; try discriminate H); contradiction);
    auto 12.
Qed.

(** X2.  The classes form a tree of depth two under [PALError]: a handler
    for a domain class [d] catches an instance of the domain class [c] only
    if [d] is [c] itself, the base named in [c]'s class statement, or
    [PALError].  So a handler for one branch never catches an error of
    another branch. *)
Theorem handler_catches_only_its_branch (c d : exc_class) :
  In c domain_classes -> In d domain_classes ->
  issubclass c d = true ->
  d = c \/ base c = Some d \/ d = PALError.
Proof.
  intros Hc Hd. destruct c, d; simpl; intros H; try discriminate H; auto;
    simpl in Hc, Hd; exfalso; intuition discriminate.
Qed.

Lemma handler_catches_only_its_branch_witness :
  PALResolverError = PALCircularDependencyError \/
  base PALCircularDependencyError = Some PALResolverError \/
  PALResolverError = PALError.
Proof.
  apply handler_catches_only_its_branch; simpl; tauto.
Defined.

(** X3.  [issubclass] is a partial order on the classes: reflexive,
    transitive, and two distinct classes are never subclasses of each
    other. *)
Theorem issubclass_partial_order :
  (forall c, issubclass c c = true) /\
  (forall c d e, issubclass c d = true -> issubclass d e = true ->
                 issubclass c e = true) /\
  (forall c d, issubclass c d = true -> issubclass d c = true -> c = d).
Proof.
  split; [exact ExceptionsFacts.issubclass_refl|].
  split; [exact ExceptionsFacts.issubclass_trans|].
  intros c d. destruct c, d; simpl; intros H1 H2;
    try reflexivity; discriminate.
Qed.

Lemma issubclass_partial_order_witness :
  issubclass PALMissingVariableError PALError = true.
Proof.
  apply (proj1 (proj2 issubclass_partial_order)) with (d := PALCompilerError);
    reflexivity.
Defined.

(** X4.  Every class that [core.py] declares can be caught through a name
    that the package root exports: it is exported itself or its base is;
    the three specializations are not exported. *)
Theorem every_domain_error_has_exported_handler (c : exc_class) :
  In c domain_classes ->
  (In c Package.exported_errors \/
   exists b, base c = Some b /\ In b Package.exported_errors /\ b <> PALError) /\
  (In c Package.exported_errors <->
   c <> PALCircularDependencyError /\ c <> PALMissingVariableError /\
   c <> PALMissingComponentError).
Proof.
  intros Hc. simpl in Hc.
  repeat (destruct Hc as [<- | Hc]);
    try contradiction;
    (split;
     [ first [ left; simpl; tauto
             | right; eexists; split; [reflexivity|]; split;
               [simpl; tauto | discriminate] ]
     | split;
       [ intros H; first [ repeat split; discriminate
                         | simpl in H;
                           repeat (destruct H as [H | H]; try discriminate H);
                           contradiction ]
       | intros [H1 [H2 H3]]; first [ simpl; tauto | congruence ] ] ]).
Qed.

Lemma every_domain_error_has_exported_handler_witness :
  exists b, base PALCircularDependencyError = Some b /\
            In b Package.exported_errors /\ b <> PALError.
Proof.
  destruct (proj1 (every_domain_error_has_exported_handler
                     PALCircularDependencyError ltac:(simpl; tauto)))
    as [H | H]; [|exact H].
  simpl in H. repeat (destruct H as [H | H]; try discriminate H). contradiction.
Defined.

End ExceptionsExtras.

(* ===================================================================== *)
(** * More on the command line *)
(* ===================================================================== *)

Module CliExtras.
Import Exceptions Schema Cli.

(** ** Texts that [rich] renders *)

(** Whether [rich] renders a text as console markup, and whether it
    renders every text of a renderable. *)
Definition renders (env : collaborators) (text : string) : bool :=
  match markup_error env text with
  | None => true
  | Some _ => false
  end.

Definition renders_all (env : collaborators) (r : renderable) : bool :=
  forallb (renders env) (markup_texts r).

Lemma first_markup_error_renders env texts :
  forallb (renders env) texts = true -> first_markup_error env texts = None.
Proof.
  induction texts as [|text texts IH]; simpl; [reflexivity|].
  unfold renders at 1. destruct (markup_error env text); [discriminate|].
  exact IH.
Qed.

Lemma first_markup_error_fails env texts :
  forallb (renders env) texts = false ->
  exists m, first_markup_error env texts = Some m.
Proof.
  induction texts as [|text texts IH]; simpl; [discriminate|].
  unfold renders at 1. destruct (markup_error env text) as [m|]; eauto.
Qed.

Lemma console_print_renders env r :
  renders_all env r = true -> console_print env r = ([Stdout r], Returned tt).
Proof.
  intros H. unfold console_print.
  now rewrite (first_markup_error_renders env _ H).
Qed.

Lemma console_print_fails env r :
  renders_all env r = false -> exists m, console_print env r = ([], Raised m).
Proof.
  intros H. unfold console_print.
  destruct (first_markup_error_fails env _ H) as [m ->]. eauto.
Qed.

Lemma error_print_renders env text :
  renders env text = true -> error_print env text = ([Stderr text], Returned tt).
Proof.
  unfold renders, error_print. now destruct (markup_error env text).
Qed.

Lemma error_print_each_renders env texts :
  forallb (renders env) texts = true ->
  error_print_each env texts = (map Stderr texts, Returned tt).
Proof.
  induction texts as [|text texts IH]; simpl; [reflexivity|].
  rewrite andb_true_iff. intros [Htext Hrest].
  rewrite (error_print_renders env text Htext), (IH Hrest). reflexivity.
Qed.

Lemma error_print_each_fails env before text after m :
  forallb (renders env) before = true ->
  markup_error env text = Some m ->
  error_print_each env (before ++ text :: after) = (map Stderr before, Raised m).
Proof.
  induction before as [|b before IH]; simpl; intros Hbefore Htext.
  - unfold error_print. rewrite Htext. reflexivity.
  - apply andb_true_iff in Hbefore. destruct Hbefore as [Hb Hbefore].
    rewrite (error_print_renders env b Hb), (IH Hbefore Htext). reflexivity.
Qed.

(** An exception that the closing clause of a command catches, raised
    before anything was printed: what follows is [handle_error] and, if
    that returns, [sys.exit(1)]. *)
Lemma guarded_raises env {A} (e : exception) :
  isinstance e Exception = true ->
  guarded env (([], Raised e) : cli A) = on_exception env e.
Proof.
  intros He. rewrite CliFacts.guarded_raised by exact He.
  now destruct (on_exception env e).
Qed.

(** ** Exit codes *)

(** A collaborator that never calls [sys.exit] itself. *)
Definition returns_or_raises {A} (o : outcome A) : Prop :=
  forall code, o <> Exited code.

(** An installation none of whose collaborators calls [sys.exit]. *)
Record no_collaborator_exits (env : collaborators) : Prop := {
  nce_json_loads : forall s, returns_or_raises (json_loads env s);
  nce_json_load_file : forall p, returns_or_raises (json_load_file env p);
  nce_json_from_data : forall d, returns_or_raises (json_from_data env d);
  nce_update : forall d v, returns_or_raises (update_from_iterable env d v);
  nce_write_text : forall p s, returns_or_raises (write_text env p s);
  nce_relative_to : forall p q, returns_or_raises (relative_to env p q);
  nce_openai : forall k, returns_or_raises (OpenAIClient env k);
  nce_anthropic : forall k, returns_or_raises (AnthropicClient env k);
  nce_mock : forall r, returns_or_raises (MockLLMClient env r);
  nce_compile_sync : forall p v, returns_or_raises (compile_from_file_sync env p v);
  nce_load_assembly : forall p, returns_or_raises (load_prompt_assembly env p);
  nce_load_assembly_async :
    forall p, returns_or_raises (load_prompt_assembly_async env p);
  nce_load_library : forall p, returns_or_raises (load_component_library env p);
  nce_compile : forall a v p, returns_or_raises (compiler_compile env a v p);
  nce_analyze : forall a, returns_or_raises (analyze_template_variables env a);
  nce_execute :
    forall c l p a m t k, returns_or_raises (executor_execute env c l p a m t k);
  nce_run_evaluation :
    forall c e p m t k, returns_or_raises (run_evaluation env c e p m t k);
  nce_json_report : forall r, returns_or_raises (generate_json_report env r);
  nce_console_report : forall r, returns_or_raises (generate_console_report env r)
}.

(** A run that, if it leaves through [sys.exit], leaves with code 1. *)
Definition exits_with_1 {A} (m : cli A) : Prop :=
  forall code, snd m = Exited code -> code = 1%Z.

Lemma exits_with_1_ret {A} (a : A) : exits_with_1 (ret a).
Proof. intros code H. discriminate. Qed.

Lemma exits_with_1_print r : exits_with_1 (print r).
Proof. intros code H. discriminate. Qed.

Lemma exits_with_1_eprint s : exits_with_1 (eprint s).
Proof. intros code H. discriminate. Qed.

Lemma exits_with_1_console_print env r : exits_with_1 (console_print env r).
Proof.
  intros code. unfold console_print.
  destruct (first_markup_error env _); discriminate.
Qed.

Lemma exits_with_1_error_print env text : exits_with_1 (error_print env text).
Proof. intros code H. now apply CliFacts.error_print_outcome in H. Qed.

Lemma exits_with_1_error_print_each env texts :
  exits_with_1 (error_print_each env texts).
Proof. intros code H. now apply CliFacts.error_print_each_outcome in H. Qed.

Lemma exits_with_1_sys_exit {A} : exits_with_1 (@sys_exit A 1).
Proof. intros code H. inversion H. reflexivity. Qed.

Lemma exits_with_1_call {A} (o : outcome A) :
  returns_or_raises o -> exits_with_1 (call o).
Proof. intros Ho code H. simpl in H. now apply Ho in H. Qed.

Lemma exits_with_1_bind {A B} (m : cli A) (k : A -> cli B) :
  exits_with_1 m -> (forall a, exits_with_1 (k a)) -> exits_with_1 (bind m k).
Proof.
  intros Hm Hk code. destruct m as [evs [a|e|c]]; simpl.
  - specialize (Hk a code). destruct (k a) as [evs' r]. exact Hk.
  - discriminate.
  - intros H. apply Hm. simpl. inversion H. reflexivity.
Qed.

Lemma exits_with_1_try_except {A} (body : cli A) cls handler :
  exits_with_1 body -> (forall e, exits_with_1 (handler e)) ->
  exits_with_1 (try_except body cls handler).
Proof.
  intros Hb Hh code. destruct body as [evs [a|e|c]]; simpl.
  - discriminate.
  - destruct (catches cls e); [|discriminate].
    specialize (Hh e code). destruct (handler e) as [evs' r]. exact Hh.
  - intros H. apply Hb. exact H.
Qed.

Ltac exits_step :=
  first
    [ apply exits_with_1_ret | apply exits_with_1_print
    | apply exits_with_1_eprint | apply exits_with_1_console_print
    | apply exits_with_1_error_print | apply exits_with_1_error_print_each
    | apply exits_with_1_sys_exit
    | apply exits_with_1_call; solve [auto | intros ? ?; discriminate]
    | apply exits_with_1_bind; [|intros ?]
    | apply exits_with_1_try_except; [|intros ?] ].

Ltac exits_auto :=
  repeat first
    [ exits_step
    | match goal with
      | |- exits_with_1 (call (match ?x with _ => _ end)) => destruct x
      | |- exits_with_1 (if ?b then _ else _) => destruct b
      | |- exits_with_1 (match ?x with _ => _ end) => destruct x
      | |- exits_with_1 (let (_, _) := ?x in _) => destruct x
      end ].

Section ExitCodes.
Variable env : collaborators.
Hypothesis Hquiet : no_collaborator_exits env.

Lemma exits_with_1_load_variables vars vars_file :
  exits_with_1 (load_variables env vars vars_file).
Proof.
  destruct Hquiet. unfold load_variables, variables_update. exits_auto.
Qed.

Lemma exits_with_1_make_client provider api_key mock_response :
  exits_with_1 (make_client env provider api_key mock_response).
Proof. destruct Hquiet. unfold make_client. exits_auto. Qed.

Lemma exits_with_1_check_file file_path : exits_with_1 (check_file env file_path).
Proof. destruct Hquiet. unfold check_file. exits_auto. Qed.

Lemma exits_with_1_check_files root files :
  forall rows valid, exits_with_1 (check_files env root files rows valid).
Proof.
  induction files as [|f files IH]; intros rows valid; cbn [check_files].
  - exits_auto.
  - apply exits_with_1_bind; [apply exits_with_1_check_file|].
    intros [v|]; [|apply IH].
    apply exits_with_1_bind; [|intros ?; apply IH].
    destruct Hquiet. exits_auto.
Qed.

Lemma exits_with_1_body (c : command) : exits_with_1 (body env c).
Proof.
  destruct c; cbn [body].
  - unfold compile_body, compile_with.
    apply exits_with_1_bind; [apply exits_with_1_load_variables|]. intros ?.
    destruct Hquiet. exits_auto.
  - unfold execute_body, run_execution, print_json.
    apply exits_with_1_bind; [apply exits_with_1_load_variables|]. intros ?.
    apply exits_with_1_bind; [apply exits_with_1_make_client|]. intros ?.
    destruct Hquiet. exits_auto.
  - unfold validate_body.
    destruct (files_to_check env p recursive); [exits_auto|].
    apply exits_with_1_bind; [apply exits_with_1_check_files|].
    intros [rows valid_files]. exits_auto.
  - unfold info_body, info_library, info_assembly. destruct Hquiet. exits_auto.
  - unfold evaluate_body, run_evaluation_async, print_json.
    apply exits_with_1_bind; [apply exits_with_1_make_client|]. intros ?.
    destruct Hquiet. exits_auto.
Qed.

(** X5.  A command function that click has dispatched to, in an
    installation where no collaborator calls [sys.exit] itself, ends with
    exit code 0 or 1.  An exception leaves it in two ways only: it is no
    instance of [Exception] and came out of the statements of the command,
    or it was raised by [handle_error] while that reported an instance of
    [Exception] that came out of them. *)
Theorem exit_code_is_0_or_1 (c : command) :
  (exit_code (run env c) = 0%Z \/ exit_code (run env c) = 1%Z) /\
  (forall e,
      snd (run env c) = Raised e ->
      (isinstance e Exception = false /\ snd (body env c) = Raised e) \/
      (exists reported,
          snd (body env c) = Raised reported /\
          isinstance reported Exception = true /\
          snd (handle_error env reported) = Raised e)).
Proof.
  rewrite CliFacts.run_guarded.
  pose proof (exits_with_1_body c) as Hbody. unfold exits_with_1 in Hbody.
  destruct (body env c) as [evs [a|reported|code]] eqn:Hc; simpl in Hbody.
  - split; [now left | discriminate].
  - split; [right; apply CliFacts.exit_code_guarded_raised|].
    unfold guarded, try_except, catches.
    destruct (isinstance reported Exception) eqn:He.
    + unfold on_exception, bind.
      destruct (handle_error env reported) as [evs' [u|m|code]] eqn:Hh; simpl;
        intros e H; try discriminate H.
      inversion H; subst. right. exists reported.
      rewrite Hh. auto.
    + simpl. intros e H. inversion H; subst. now left.
  - rewrite (Hbody code eq_refl). split; [now right | discriminate].
Qed.

End ExitCodes.

Lemma sample_env_quiet : no_collaborator_exits CliFacts.sample_env.
Proof.
  constructor; simpl; unfold returns_or_raises; intros;
    repeat match goal with
           | |- context [if ?b then _ else _] => destruct b
           | |- context [match ?x with _ => _ end] => destruct x
           end; discriminate.
Qed.

Lemma exit_code_is_0_or_1_witness :
  exit_code (run CliFacts.sample_env (Validate "a.pal" true)) = 0%Z \/
  exit_code (run CliFacts.sample_env (Validate "a.pal" true)) = 1%Z.
Proof.
  exact (proj1 (exit_code_is_0_or_1 CliFacts.sample_env sample_env_quiet
                  (Validate "a.pal" true))).
Defined.

(** ** What [handle_error] prints *)

(** X6.  [handle_error] on a PAL error prints the message line, then, only
    when the context is a non-empty mapping, the header and one line per
    item in the mapping's order, up to the first of these texts that [rich]
    does not render: when they all render, exactly these lines are printed
    and [handle_error] returns; when the message line does not render,
    nothing is printed; when the line of a context item does not render,
    the lines before it are printed; in both cases the [MarkupError] leaves
    [handle_error].  Any other exception gets the one generic line,
    likewise. *)
Theorem handle_error_prints_until_markup_fails
        (env : collaborators) (error : exception) :
  (isinstance error PALError = true ->
   (forall m,
       markup_error env ("[red]Error:[/red] " ++ exc_str error) = Some m ->
       handle_error env error = ([], Raised m)) /\
   (forall items,
       renders env ("[red]Error:[/red] " ++ exc_str error) = true ->
       exc_context error = Some items ->
       forallb (renders env) (map (context_line env) items) = true ->
       handle_error env error
       = (Stderr ("[red]Error:[/red] " ++ exc_str error)
          :: match items with
             | [] => []
             | _ :: _ =>
                 Stderr "[dim]Context:[/dim]"
                 :: map Stderr (map (context_line env) items)
             end,
          Returned tt)) /\
   (forall before item after m,
       renders env ("[red]Error:[/red] " ++ exc_str error) = true ->
       exc_context error = Some (before ++ item :: after) ->
       forallb (renders env) (map (context_line env) before) = true ->
       markup_error env (context_line env item) = Some m ->
       handle_error env error
       = (Stderr ("[red]Error:[/red] " ++ exc_str error)
          :: Stderr "[dim]Context:[/dim]"
          :: map Stderr (map (context_line env) before),
          Raised m))) /\
  (isinstance error PALError = false ->
   (forall m,
       markup_error env ("[red]Unexpected error:[/red] " ++ exc_str error) = Some m ->
       handle_error env error = ([], Raised m)) /\
   (renders env ("[red]Unexpected error:[/red] " ++ exc_str error) = true ->
    handle_error env error
    = ([Stderr ("[red]Unexpected error:[/red] " ++ exc_str error)], Returned tt))).
Proof.
  split; intros Hpal; unfold handle_error; rewrite Hpal.
  - split; [|split].
    + intros m Hm. unfold error_print. rewrite Hm. reflexivity.
    + intros items Hline Hcontext Hitems.
      rewrite (error_print_renders env _ Hline), Hcontext.
      destruct items as [|item items]; [reflexivity|].
      rewrite (error_print_each_renders env _ Hitems). reflexivity.
    + intros before item after m Hline Hcontext Hbefore Hm.
      rewrite (error_print_renders env _ Hline), Hcontext.
      assert (error_print_each env (map (context_line env) (before ++ item :: after))
              = (map Stderr (map (context_line env) before), Raised m)) as Heach.
      { rewrite map_app. cbn [map]. now apply error_print_each_fails. }
      destruct (before ++ item :: after) as [|first others] eqn:Hsplit;
        [now destruct before|].
      rewrite Heach. reflexivity.
  - split.
    + intros m Hm. unfold error_print. rewrite Hm. reflexivity.
    + intros Hline. now apply error_print_renders.
Qed.

Lemma handle_error_prints_until_markup_fails_witness :
  handle_error CliFacts.sample_env
    (PALError_init PALLoadError "File not found" (Some [("path", VStr "x.pal")]))
  = ([ Stderr "[red]Error:[/red] File not found";
       Stderr "[dim]Context:[/dim]";
       Stderr "  path: x.pal" ], Returned tt) /\
  handle_error CliFacts.sample_env
    (PALError_init PALLoadError "File not found" (Some [("path", VStr "a[/b]")]))
  = ([ Stderr "[red]Error:[/red] File not found";
       Stderr "[dim]Context:[/dim]" ],
     Raised (builtin_exception MarkupError
               "closing tag '[/b]' at position 9 doesn't match any open tag")).
Proof.
  split.
  - exact (proj1 (proj2 (proj1 (handle_error_prints_until_markup_fails
                                  CliFacts.sample_env
                                  (PALError_init PALLoadError "File not found"
                                     (Some [("path", VStr "x.pal")])))
                           eq_refl))
             [("path", VStr "x.pal")] eq_refl eq_refl eq_refl).
  - exact (proj2 (proj2 (proj1 (handle_error_prints_until_markup_fails
                                  CliFacts.sample_env
                                  (PALError_init PALLoadError "File not found"
                                     (Some [("path", VStr "a[/b]")])))
                           eq_refl))
             [] ("path", VStr "a[/b]") [] _ eq_refl eq_refl eq_refl eq_refl).
Defined.

(** ** Reading the variables *)

Lemma dict_set_fresh {V} (k : string) (v : V) (d : dict V) :
  ~ In k (dict_keys d) -> dict_set k v d = d ++ [(k, v)].
Proof.
  induction d as [|[k' v'] d IH]; simpl; intros Hk; [reflexivity|].
  destruct (String.eqb k k') eqn:E.
  - apply String.eqb_eq in E. subst. tauto.
  - rewrite IH by tauto. reflexivity.
Qed.

Lemma dict_update_fresh {V} (other : dict V) :
  forall d, dict_wf (d ++ other) -> dict_update d other = d ++ other.
Proof.
  unfold dict_update, dict_wf, dict_keys.
  induction other as [|[k v] other IH]; intros d Hwf; simpl.
  - now rewrite app_nil_r.
  - rewrite map_app in Hwf. simpl in Hwf.
    pose proof (NoDup_remove_2 _ _ _ Hwf) as Hfresh.
    rewrite dict_set_fresh.
    + rewrite IH.
      * now rewrite <- app_assoc.
      * rewrite <- app_assoc. simpl. now rewrite map_app.
    + intros Hin. apply Hfresh. apply in_or_app. now left.
Qed.

(** X7.  With only one of [--vars-file] and [--vars] given (an empty
    [--vars] counts as not given), and that one a JSON object, the
    variables handed on are exactly that object, in its order; with
    neither, they are the empty mapping. *)
Theorem single_source_variables_are_that_source
        (env : collaborators) (source : dict pyvalue) :
  dict_wf source ->
  (forall vars_file,
      json_load_file env vars_file = Returned (VDict source) ->
      load_variables env None (Some vars_file) = ([], Returned source) /\
      load_variables env (Some "") (Some vars_file) = ([], Returned source)) /\
  (forall vars,
      vars <> "" ->
      json_loads env vars = Returned (VDict source) ->
      load_variables env (Some vars) None = ([], Returned source)) /\
  load_variables env None None = ([], Returned []) /\
  load_variables env (Some "") None = ([], Returned []).
Proof.
  intros Hwf.
  assert (dict_update [] source = source) as Hsame
      by (now apply (dict_update_fresh source [])).
  repeat split.
  - unfold load_variables. rewrite H. simpl. now rewrite Hsame.
  - unfold load_variables. rewrite H. simpl. now rewrite Hsame.
  - intros vars Hne Hloads. unfold load_variables.
    destruct vars as [|c vars]; [congruence|].
    simpl. rewrite Hloads. simpl. now rewrite Hsame.
Qed.

Lemma single_source_variables_are_that_source_witness :
  load_variables CliFacts.sample_env None (Some "vars.json")
  = ([], Returned [("name", VStr "file"); ("tone", VStr "formal")]).
Proof.
  refine (proj1 (proj1 (single_source_variables_are_that_source
                          CliFacts.sample_env
                          [("name", VStr "file"); ("tone", VStr "formal")] _)
                   "vars.json" eq_refl)).
  unfold dict_wf. simpl. repeat constructor; simpl; intuition discriminate.
Defined.

(** X8.  Malformed [--vars]: when [json.loads] raises a [JSONDecodeError]
    (and the variables file, if any, held an object), [compile] and
    [execute] print the one line "Invalid JSON in --vars" with the parser's
    message and exit with code 1; [handle_error] is not involved and the
    prompt is neither compiled nor executed. *)
Theorem invalid_vars_json_exits_1
        (env : collaborators) (vars : string) (vars_file : option path)
        (e : exception) :
  vars <> "" ->
  json_loads env vars = Raised e ->
  isinstance e JSONDecodeError = true ->
  match vars_file with
  | Some f => exists d, json_load_file env f = Returned (VDict d)
  | None => True
  end ->
  (forall pal_file output no_format,
      compile env pal_file (Some vars) vars_file output no_format
      = ([Stderr ("[red]Invalid JSON in --vars:[/red] " ++ exc_str e)],
         Exited 1%Z)) /\
  (forall pal_file model provider temperature max_tokens api_key log_file
          output json_output,
      execute env pal_file model provider (Some vars) vars_file temperature
        max_tokens api_key log_file output json_output
      = ([Stderr ("[red]Invalid JSON in --vars:[/red] " ++ exc_str e)],
         Exited 1%Z)).
Proof.
  intros Hne Hloads Hinst Hfile.
  assert (load_variables env (Some vars) vars_file
          = ([Stderr ("[red]Invalid JSON in --vars:[/red] " ++ exc_str e)],
             Exited 1%Z)) as Hload.
  { unfold load_variables. destruct vars as [|c vars]; [congruence|].
    destruct vars_file as [f|].
    - destruct Hfile as [d Hd]. rewrite Hd. simpl. rewrite Hloads. simpl.
      unfold catches. rewrite Hinst. reflexivity.
    - simpl. rewrite Hloads. simpl. unfold catches. rewrite Hinst. reflexivity. }
  split; intros.
  - unfold compile, compile_body. rewrite Hload. reflexivity.
  - unfold execute, execute_body. rewrite Hload. reflexivity.
Qed.

Lemma invalid_vars_json_exits_1_witness :
  exit_code (compile CliFacts.sample_env "a.pal" (Some "{name") None None true)
  = 1%Z.
Proof.
  rewrite (proj1 (invalid_vars_json_exits_1 CliFacts.sample_env "{name" None
                    (builtin_exception JSONDecodeError "Expecting value")
                    ltac:(discriminate) eq_refl eq_refl I)).
  reflexivity.
Defined.

(** X9.  The variables file is read first: when reading it raises an
    instance of [Exception] (the path names a directory, the file cannot
    be read or does not hold JSON), the command goes straight to its
    closing clause, [handle_error] on that error and then [sys.exit(1)],
    whatever [--vars] holds; [--vars] is not parsed and nothing is
    compiled. *)
Theorem vars_file_failure_comes_first
        (env : collaborators) (vars_file : path) (e : exception) :
  json_load_file env vars_file = Raised e ->
  isinstance e Exception = true ->
  (forall pal_file vars output no_format,
      compile env pal_file vars (Some vars_file) output no_format
      = on_exception env e) /\
  (forall pal_file model provider vars temperature max_tokens api_key log_file
          output json_output,
      execute env pal_file model provider vars (Some vars_file) temperature
        max_tokens api_key log_file output json_output
      = on_exception env e).
Proof.
  intros Hfile Hinst.
  assert (forall vars, load_variables env vars (Some vars_file) = ([], Raised e))
    as Hload.
  { intros vars. unfold load_variables. rewrite Hfile. reflexivity. }
  split; intros.
  - unfold compile, compile_body. rewrite Hload. cbn [bind].
    now apply guarded_raises.
  - unfold execute, execute_body. rewrite Hload. cbn [bind].
    now apply guarded_raises.
Qed.

Lemma vars_file_failure_comes_first_witness :
  compile CliFacts.sample_env "a.pal" (Some "{name") (Some "broken.json") None true
  = ([Stderr "[red]Unexpected error:[/red] Expecting value: line 1 column 1 (char 0)"],
     Exited 1%Z).
Proof.
  rewrite (proj1 (vars_file_failure_comes_first CliFacts.sample_env "broken.json"
                    (builtin_exception JSONDecodeError
                       "Expecting value: line 1 column 1 (char 0)")
                    eq_refl eq_refl)).
  reflexivity.
Defined.


(** A copy of an installation with another JSON parser. *)
Definition with_json_loads (env : collaborators)
           (parser : string -> outcome pyvalue) : collaborators :=
  {| markup_error := markup_error env;
     py_str := py_str env;
     json_loads := parser;
     json_load_file := json_load_file env;
     json_dumps := json_dumps env;
     json_from_data := json_from_data env;
     update_from_iterable := update_from_iterable env;
     write_text := write_text env;
     is_file := is_file env;
     is_dir := is_dir env;
     glob := glob env;
     parent := parent env;
     relative_to := relative_to env;
     format_1f := format_1f env;
     str_of_tokens := str_of_tokens env;
     llm_client := llm_client env;
     OpenAIClient := OpenAIClient env;
     AnthropicClient := AnthropicClient env;
     MockLLMClient := MockLLMClient env;
     compile_from_file_sync := compile_from_file_sync env;
     load_prompt_assembly := load_prompt_assembly env;
     load_prompt_assembly_async := load_prompt_assembly_async env;
     load_component_library := load_component_library env;
     compiler_compile := compiler_compile env;
     analyze_template_variables := analyze_template_variables env;
     executor_execute := executor_execute env;
     model_dump_json := model_dump_json env;
     model_dump := model_dump env;
     run_evaluation := run_evaluation env;
     generate_json_report := generate_json_report env;
     generate_console_report := generate_console_report env |}.

(** A copy of an installation with another template analysis. *)
Definition with_analysis (env : collaborators)
           (analysis : PromptAssembly -> outcome (list string)) : collaborators :=
  {| markup_error := markup_error env;
     py_str := py_str env;
     json_loads := json_loads env;
     json_load_file := json_load_file env;
     json_dumps := json_dumps env;
     json_from_data := json_from_data env;
     update_from_iterable := update_from_iterable env;
     write_text := write_text env;
     is_file := is_file env;
     is_dir := is_dir env;
     glob := glob env;
     parent := parent env;
     relative_to := relative_to env;
     format_1f := format_1f env;
     str_of_tokens := str_of_tokens env;
     llm_client := llm_client env;
     OpenAIClient := OpenAIClient env;
     AnthropicClient := AnthropicClient env;
     MockLLMClient := MockLLMClient env;
     compile_from_file_sync := compile_from_file_sync env;
     load_prompt_assembly := load_prompt_assembly env;
     load_prompt_assembly_async := load_prompt_assembly_async env;
     load_component_library := load_component_library env;
     compiler_compile := compiler_compile env;
     analyze_template_variables := analysis;
     executor_execute := executor_execute env;
     model_dump_json := model_dump_json env;
     model_dump := model_dump env;
     run_evaluation := run_evaluation env;
     generate_json_report := generate_json_report env;
     generate_console_report := generate_console_report env |}.

Lemma with_analysis_quiet env analysis :
  no_collaborator_exits env ->
  (forall a, returns_or_raises (analysis a)) ->
  no_collaborator_exits (with_analysis env analysis).
Proof. intros [] Han. constructor; simpl; auto. Qed.


(** ** Strings *)

Lemma length_append (a b : string) :
  String.length (a ++ b) = (String.length a + String.length b)%nat.
Proof. induction a; simpl; [reflexivity | now rewrite IHa]. Qed.

Lemma substring_all (s : string) : substring 0 (String.length s) s = s.
Proof. induction s; simpl; [reflexivity | now rewrite IHs]. Qed.

Lemma substring_tail (n : nat) :
  forall s, (n <= String.length s)%nat ->
            exists before,
              s = (before ++ substring n (String.length s - n) s)%string.
Proof.
  induction n as [|n IH]; intros s Hn.
  - exists "". rewrite Nat.sub_0_r. now rewrite substring_all.
  - destruct s as [|c s]; simpl in Hn; [lia|].
    destruct (IH s ltac:(lia)) as [before Hb].
    exists (String c before). simpl. now rewrite <- Hb.
Qed.

Lemma endswith_split (s suffix : string) :
  endswith s suffix = true -> exists before, s = (before ++ suffix)%string.
Proof.
  unfold endswith. rewrite andb_true_iff. intros [Hlen Heq].
  apply Nat.leb_le in Hlen. apply String.eqb_eq in Heq.
  destruct (substring_tail (String.length s - String.length suffix) s ltac:(lia))
    as [before Hb].
  exists before.
  replace (String.length s - (String.length s - String.length suffix))%nat
    with (String.length suffix) in Hb by lia.
  now rewrite Heq in Hb.
Qed.

Lemma from_last_dot_pal_lib (before : string) :
  forall found, from_last_dot (before ++ ".pal.lib") found = Some ".lib".
Proof.
  induction before as [|c before IH]; intros found; [reflexivity|].
  simpl. destruct (Ascii.eqb c "."); apply IH.
Qed.

Lemma py_len_append (a b : string) : py_len (a ++ b) = (py_len a + py_len b)%nat.
Proof.
  induction a as [|c a IH]; simpl; [reflexivity|].
  destruct (continuation_byte c); rewrite IH; reflexivity.
Qed.

Lemma py_len_take (s : string) :
  forall n, py_len (py_take n s) = Nat.min n (py_len s).
Proof.
  induction s as [|c s IH]; intros n; simpl.
  - now rewrite Nat.min_0_r.
  - destruct (continuation_byte c) eqn:E; simpl.
    + rewrite E. apply IH.
    + destruct n as [|n]; simpl; [reflexivity|].
      rewrite E, IH. reflexivity.
Qed.

(** The text cut for the table: the whole text when it has at most 50
    characters, otherwise its first 50 characters and three dots. *)
Lemma cut_at_50_length (s : string) :
  ((py_len s <= 50)%nat -> cut_at_50 s = s) /\
  ((50 < py_len s)%nat ->
   cut_at_50 s = (py_take 50 s ++ "...")%string /\ py_len (py_take 50 s) = 50%nat) /\
  (py_len (cut_at_50 s) <= 53)%nat.
Proof.
  unfold cut_at_50. destruct (50 <? py_len s)%nat eqn:E.
  - apply Nat.ltb_lt in E. repeat split; try lia.
    + rewrite py_len_take. lia.
    + rewrite py_len_append, py_len_take.
      change (py_len "...") with 3%nat. lia.
  - apply Nat.ltb_ge in E. repeat split; lia.
Qed.

(** ** [validate] *)

(** X11.  A file whose name ends in [.pal.lib] always has the suffix
    [.lib] and never the suffix [.pal]: [validate] checks it as a library,
    and when the library loads the file is shown as Library, Valid, and is
    counted. *)
Theorem pal_lib_files_are_checked_as_libraries
        (env : collaborators) (file_path : path) :
  endswith (path_name file_path) ".pal.lib" = true ->
  path_suffix file_path = ".lib" /\
  (forall library,
      load_component_library env file_path = Returned library ->
      check_file env file_path
      = ([], Returned (Some {| file_type := "Library"; status := status_valid;
                               issues := ""; counts_as_valid := true |}))).
Proof.
  intros Hend.
  assert (path_suffix file_path = ".lib") as Hsuf.
  { unfold path_suffix.
    destruct (endswith_split _ _ Hend) as [before Hname].
    rewrite Hname, from_last_dot_pal_lib, length_append. simpl.
    replace (4 <? String.length before + 8)%nat with true
      by (symmetry; apply Nat.ltb_lt; lia).
    reflexivity. }
  split; [exact Hsuf|].
  intros library Hload. unfold check_file. rewrite Hsuf, Hend. simpl.
  rewrite Hload. reflexivity.
Qed.

Lemma pal_lib_files_are_checked_as_libraries_witness :
  path_suffix "lib/traits.pal.lib" = ".lib".
Proof.
  exact (proj1 (pal_lib_files_are_checked_as_libraries CliFacts.sample_env
                  "lib/traits.pal.lib" eq_refl)).
Defined.

(** [sorted] gives an ascending list of the same elements. *)
Definition ascending : list string -> Prop :=
  Sorted (fun a b => String.leb a b = true).

Lemma insert_sorted_permutation (x : string) (xs : list string) :
  Permutation (insert_sorted x xs) (x :: xs).
Proof.
  induction xs as [|y ys IH]; simpl; [reflexivity|].
  destruct (String.leb x y); [reflexivity|].
  rewrite IH. apply perm_swap.
Qed.

Lemma sorted_permutation (xs : list string) : Permutation (sorted xs) xs.
Proof.
  induction xs as [|x xs IH]; simpl; [reflexivity|].
  rewrite insert_sorted_permutation. now constructor.
Qed.

Lemma insert_sorted_ascending (x : string) (xs : list string) :
  ascending xs -> ascending (insert_sorted x xs).
Proof.
  unfold ascending.
  induction xs as [|y ys IH]; simpl; intros Hxs.
  - repeat constructor.
  - destruct (String.leb x y) eqn:E.
    + constructor; [assumption | now constructor].
    + apply Sorted_inv in Hxs. destruct Hxs as [Hys Hhd].
      constructor; [now apply IH|].
      destruct ys as [|z zs]; simpl.
      * constructor. destruct (String.leb_total x y); congruence.
      * destruct (String.leb x z).
        -- constructor. destruct (String.leb_total x y); congruence.
        -- constructor. now inversion Hhd.
Qed.

Lemma sorted_ascending (xs : list string) : ascending (sorted xs).
Proof.
  induction xs as [|x xs IH]; simpl; [constructor|].
  now apply insert_sorted_ascending.
Qed.

Lemma existsb_eqb_false (name : string) (l : list string) :
  existsb (String.eqb name) l = false <-> ~ In name l.
Proof.
  split.
  - intros H Hin.
    assert (existsb (String.eqb name) l = true) as C
        by (apply existsb_exists; exists name; split;
            [assumption | apply String.eqb_refl]).
    congruence.
  - intros H. destruct (existsb (String.eqb name) l) eqn:E; [|reflexivity].
    apply existsb_exists in E. destruct E as [x [Hx Heq]].
    apply String.eqb_eq in Heq. subst. contradiction.
Qed.

Lemma undefined_variables_In (prompt_assembly : PromptAssembly)
      (template_vars : list string) (name : string) :
  In name (undefined_variables prompt_assembly template_vars) <->
  In name template_vars /\
  ~ In name (map var_name (pa_variables prompt_assembly)) /\
  name <> "loop" /\ name <> "super".
Proof.
  unfold undefined_variables, set_minus.
  rewrite !filter_In, !negb_true_iff, !existsb_eqb_false.
  simpl. intuition congruence.
Qed.

(** X12.  For an assembly file that loads and whose templates are
    analysed, [validate] lists, in ascending order and each once per
    occurrence among the template variables, exactly the template
    variables that are neither declared by the assembly nor one of the
    Jinja builtins [loop] and [super]: with none the file is shown as
    Valid, without issues, and is counted; otherwise it is shown as a
    Warning whose issue text is these names joined by commas, and is not
    counted. *)
Theorem undefined_variables_are_listed_in_order
        (env : collaborators) (file_path : path)
        (prompt_assembly : PromptAssembly) (template_vars : list string) :
  path_suffix file_path = ".pal" ->
  load_prompt_assembly env file_path = Returned prompt_assembly ->
  analyze_template_variables env prompt_assembly = Returned template_vars ->
  exists names,
    (forall name,
        In name names <->
        In name template_vars /\
        ~ In name (map var_name (pa_variables prompt_assembly)) /\
        name <> "loop" /\ name <> "super") /\
    Sorted (fun a b => String.leb a b = true) names /\
    (NoDup template_vars -> NoDup names) /\
    check_file env file_path
    = ([], Returned (Some
             match names with
             | [] => {| file_type := "Assembly"; status := status_valid;
                        issues := ""; counts_as_valid := true |}
             | _ :: _ => {| file_type := "Assembly"; status := status_warning;
                            issues := "Undefined variables: "
                                      ++ String.concat ", " names;
                            counts_as_valid := false |}
             end)).
Proof.
  intros Hsuf Hload Han.
  exists (sorted (undefined_variables prompt_assembly template_vars)).
  pose proof (sorted_permutation
                (undefined_variables prompt_assembly template_vars)) as Hperm.
  split; [|split; [|split]].
  - intros name. rewrite <- undefined_variables_In. split; intros Hin.
    + now apply (Permutation_in _ Hperm).
    + now apply (Permutation_in _ (Permutation_sym Hperm)).
  - apply sorted_ascending.
  - intros Hnd. apply (Permutation_NoDup (Permutation_sym Hperm)).
    unfold undefined_variables, set_minus. now repeat apply NoDup_filter.
  - assert (undefined_variables prompt_assembly template_vars = [] \/
            undefined_variables prompt_assembly template_vars <> [])
      as [Hnone | Hsome]
        by (destruct (undefined_variables prompt_assembly template_vars);
            [now left | right; discriminate]).
    + rewrite Hnone. unfold check_file. rewrite Hsuf. simpl. rewrite Hload.
      simpl. rewrite Han. simpl. rewrite Hnone. reflexivity.
    + rewrite (CliFacts.check_file_warning env file_path _ _ Hsuf Hload Han Hsome).
      destruct (sorted (undefined_variables prompt_assembly template_vars))
        as [|n ns] eqn:Es; [|reflexivity].
      exfalso. apply Hsome. now apply Permutation_nil.
Qed.

Lemma undefined_variables_are_listed_in_order_witness :
  exists names,
    (forall name,
        In name names <->
        In name ["tone"; "loop"; "name"; "topic"] /\
        ~ In name (map var_name (pa_variables CliFacts.sample_assembly)) /\
        name <> "loop" /\ name <> "super") /\
    Sorted (fun a b => String.leb a b = true) names /\
    (NoDup ["tone"; "loop"; "name"; "topic"] -> NoDup names) /\
    check_file
      (with_analysis CliFacts.sample_env
         (fun _ => Returned ["tone"; "loop"; "name"; "topic"])) "a.pal"
    = ([], Returned (Some
             match names with
             | [] => {| file_type := "Assembly"; status := status_valid;
                        issues := ""; counts_as_valid := true |}
             | _ :: _ => {| file_type := "Assembly"; status := status_warning;
                            issues := "Undefined variables: "
                                      ++ String.concat ", " names;
                            counts_as_valid := false |}
             end)).
Proof.
  exact (undefined_variables_are_listed_in_order
           (with_analysis CliFacts.sample_env
              (fun _ => Returned ["tone"; "loop"; "name"; "topic"]))
           "a.pal" CliFacts.sample_assembly ["tone"; "loop"; "name"; "topic"]
           eq_refl eq_refl eq_refl).
Defined.

(** The scenario of the witness, evaluated. *)
Example undefined_variables_sorted :
  check_file
    (with_analysis CliFacts.sample_env
       (fun _ => Returned ["tone"; "loop"; "name"; "topic"])) "a.pal"
  = ([], Returned (Some {| file_type := "Assembly"; status := status_warning;
                           issues := "Undefined variables: name, tone, topic";
                           counts_as_valid := false |})).
Proof. reflexivity. Qed.

(** What the inner handler of the loop makes of an exception. *)
Definition invalid (e : exception) : verdict :=
  {| file_type := "Unknown"; status := status_invalid;
     issues := cut_at_50 (exc_str e); counts_as_valid := false |}.

Ltac check_file_cases env file_path :=
  unfold check_file, try_except, catches;
  destruct (String.eqb (path_suffix file_path) ".pal");
  [ destruct (load_prompt_assembly env file_path) as [pa|e|code]; simpl;
    [ destruct (analyze_template_variables env pa) as [tv|e|code]; simpl;
      [ destruct (undefined_variables pa tv) | | ] | | ]
  | destruct (String.eqb (path_suffix file_path) ".lib"
              && endswith (path_name file_path) ".pal.lib");
    [ destruct (load_component_library env file_path) as [lib|e|code] | ] ];
  simpl.

Ltac destruct_caught :=
  match goal with
  | |- context [if isinstance ?x Exception then _ else _] =>
      let caught := fresh "Hcaught" in
      destruct (isinstance x Exception) eqn:caught
  end.



(** A message of 51 characters, one of them of two bytes, is cut after
    its first 50 characters, not after its first 50 bytes; a message of 50
    characters and 51 bytes is not cut. *)
Example cut_counts_characters :
  cut_at_50 "0123456789012345678901234567890123456789012345678é0"
  = "0123456789012345678901234567890123456789012345678é..." /\
  cut_at_50 "0123456789012345678901234567890123456789012345678é"
  = "0123456789012345678901234567890123456789012345678é".
Proof. split; reflexivity. Qed.

(** A file that [validate] counts as valid: an assembly that loads and
    whose template variables are all declared or builtin, or a library,
    named [*.pal.lib], that loads. *)
Definition valid_file (env : collaborators) (file_path : path) : bool :=
  if String.eqb (path_suffix file_path) ".pal" then
    match load_prompt_assembly env file_path with
    | Returned prompt_assembly =>
        match analyze_template_variables env prompt_assembly with
        | Returned template_vars =>
            forallb (fun name =>
                       existsb (String.eqb name)
                         (map var_name (pa_variables prompt_assembly))
                       || String.eqb name "loop" || String.eqb name "super")
                    template_vars
        | _ => false
        end
    | _ => false
    end
  else if String.eqb (path_suffix file_path) ".lib"
          && endswith (path_name file_path) ".pal.lib" then
    match load_component_library env file_path with
    | Returned _ => true
    | _ => false
    end
  else false.

(** The row of the table for a file that is valid. *)
Definition valid_row (env : collaborators) (root file_path : path) : list string :=
  [ match relative_to env file_path (parent env root) with
    | Returned shown => shown
    | _ => ""
    end;
    if String.eqb (path_suffix file_path) ".pal" then "Assembly" else "Library";
    status_valid; "" ].

Definition validation_table (rows : list (list string)) : renderable :=
  Table "PAL Validation Results" ["File"; "Type"; "Status"; "Issues"] rows.

Lemma undefined_variables_none (prompt_assembly : PromptAssembly)
      (template_vars : list string) :
  undefined_variables prompt_assembly template_vars = [] <->
  forallb (fun name =>
             existsb (String.eqb name)
               (map var_name (pa_variables prompt_assembly))
             || String.eqb name "loop" || String.eqb name "super")
          template_vars = true.
Proof.
  unfold undefined_variables, set_minus.
  induction template_vars as [|name names IH]; simpl; [tauto|].
  destruct (existsb (String.eqb name)
              (map var_name (pa_variables prompt_assembly))); simpl;
    [exact IH|].
  destruct (String.eqb name "loop"); simpl; [exact IH|].
  destruct (String.eqb name "super"); simpl; [exact IH|].
  split; discriminate.
Qed.

Lemma counted_valid_file env file_path :
  CliFacts.counted env file_path = valid_file env file_path.
Proof.
  unfold CliFacts.counted, valid_file, check_file, try_except.
  destruct (String.eqb (path_suffix file_path) ".pal").
  - destruct (load_prompt_assembly env file_path) as [pa|e|code]; simpl;
      [|destruct (catches Exception e); reflexivity | reflexivity].
    destruct (analyze_template_variables env pa) as [tv|e|code]; simpl;
      [|destruct (catches Exception e); reflexivity | reflexivity].
    pose proof (undefined_variables_none pa tv) as Hnone.
    destruct (undefined_variables pa tv); simpl.
    + symmetry. now apply Hnone.
    + symmetry. apply not_true_is_false. intros H. apply Hnone in H.
      discriminate H.
  - destruct (String.eqb (path_suffix file_path) ".lib"
              && endswith (path_name file_path) ".pal.lib"); [|reflexivity].
    destruct (load_component_library env file_path) as [lib|e|code]; simpl;
      [reflexivity | destruct (catches Exception e); reflexivity | reflexivity].
Qed.

Lemma check_file_valid env file_path :
  valid_file env file_path = true ->
  check_file env file_path
  = ([], Returned (Some {| file_type :=
                             if String.eqb (path_suffix file_path) ".pal"
                             then "Assembly" else "Library";
                           status := status_valid; issues := "";
                           counts_as_valid := true |})).
Proof.
  unfold valid_file, check_file.
  destruct (String.eqb (path_suffix file_path) ".pal").
  - destruct (load_prompt_assembly env file_path) as [pa|e|code];
      try discriminate.
    destruct (analyze_template_variables env pa) as [tv|e|code] eqn:Han;
      try discriminate.
    intros H. apply undefined_variables_none in H. simpl. rewrite Han.
    simpl. rewrite H. reflexivity.
  - destruct (String.eqb (path_suffix file_path) ".lib"
              && endswith (path_name file_path) ".pal.lib"); [|discriminate].
    destruct (load_component_library env file_path) as [lib|e|code];
      try discriminate.
    reflexivity.
Qed.

Lemma check_files_valid_count env root files :
  forall rows valid evs rows' valid',
    check_files env root files rows valid = (evs, Returned (rows', valid')) ->
    valid' = (valid + List.length (filter (valid_file env) files))%nat.
Proof.
  induction files as [|f files IH]; intros rows valid evs rows' valid' H;
    cbn [check_files] in H.
  - inversion H; subst. simpl. lia.
  - apply CliFacts.bind_returned in H.
    destruct H as (evs1 & v & evs2 & Hcheck & Hrest & _).
    cbn [filter]. rewrite <- counted_valid_file.
    unfold CliFacts.counted at 1. rewrite Hcheck.
    destruct v as [v|].
    + apply CliFacts.bind_returned in Hrest.
      destruct Hrest as (evs3 & shown & evs4 & _ & Hrest & _).
      apply IH in Hrest. destruct (counts_as_valid v); simpl; lia.
    + apply IH in Hrest. lia.
Qed.

Lemma check_files_all_valid env root files :
  forall rows valid,
    forallb (valid_file env) files = true ->
    (forall f, In f files ->
               exists shown, relative_to env f (parent env root) = Returned shown) ->
    check_files env root files rows valid
    = ([], Returned (rows ++ map (valid_row env root) files,
                     (valid + List.length files)%nat)).
Proof.
  induction files as [|f files IH]; intros rows valid Hvalid Hshown.
  - simpl. now rewrite app_nil_r, Nat.add_0_r.
  - simpl in Hvalid. apply andb_true_iff in Hvalid. destruct Hvalid as [Hf Hfiles].
    destruct (Hshown f (or_introl eq_refl)) as [shown Hs].
    cbn [check_files]. rewrite (check_file_valid env f Hf). cbn [bind].
    rewrite Hs. cbn [call bind counts_as_valid file_type status issues].
    rewrite IH by (auto; intros g Hg; apply Hshown; now right).
    cbn [map List.length]. unfold valid_row at 2. rewrite Hs.
    rewrite <- app_assoc. cbn [app]. now rewrite Nat.add_succ_r.
Qed.

Lemma filter_length_all {A} (f : A -> bool) (l : list A) :
  (List.length (filter f l) <= List.length l)%nat /\
  (List.length (filter f l) = List.length l <-> forallb f l = true).
Proof.
  induction l as [|x l [IHle IHeq]]; simpl; [split; [lia | tauto]|].
  destruct (f x); simpl.
  - split; [lia|]. rewrite <- IHeq. split; lia.
  - split; [lia|]. split; [lia | discriminate].
Qed.

(** X14.  [validate] with nothing to check prints the notice and returns,
    without loading anything.  Otherwise, in an installation where no
    collaborator calls [sys.exit] itself: when one of the files to check is
    not valid (it does not load, names an undeclared variable, or is
    neither [*.pal] nor [*.pal.lib]), the exit code is 1, whatever else
    happens; when they are all valid, each has a path relative to the
    parent of the argument, and [rich] renders the table, then the table
    of their rows and the summary are printed and the command returns.  So
    the exit code is 0 only if every file to check is valid. *)
Theorem validate_exits_0_only_if_all_files_valid
        (env : collaborators) (p : path) (recursive : bool) :
  no_collaborator_exits env ->
  (files_to_check env p recursive = [] ->
   validate env p recursive
   = ([Stdout (Text "[yellow]No PAL files found to validate[/yellow]")],
      Returned tt)) /\
  (files_to_check env p recursive <> [] ->
   forallb (valid_file env) (files_to_check env p recursive) = false ->
   exit_code (validate env p recursive) = 1%Z) /\
  (files_to_check env p recursive <> [] ->
   forallb (valid_file env) (files_to_check env p recursive) = true ->
   (forall f, In f (files_to_check env p recursive) ->
              exists shown, relative_to env f (parent env p) = Returned shown) ->
   renders_all env
     (validation_table (map (valid_row env p) (files_to_check env p recursive)))
   = true ->
   validate env p recursive
   = ([ Stdout (validation_table
                  (map (valid_row env p) (files_to_check env p recursive)));
        Stdout (Text (newline ++ "[bold]Summary:[/bold] "
                      ++ str_of_nat (List.length (files_to_check env p recursive))
                      ++ "/"
                      ++ str_of_nat (List.length (files_to_check env p recursive))
                      ++ " files valid")) ],
      Returned tt)).
Proof.
  intros Hquiet. unfold validate, validate_body.
  pose proof (exits_with_1_check_files env Hquiet p
                (files_to_check env p recursive) [] 0%nat) as Hexit.
  destruct (files_to_check env p recursive) as [|f fs] eqn:Hfiles;
    (split; [|split]); try congruence; try reflexivity.
  - intros _ Hbad. cbv zeta.
    destruct (check_files env p (f :: fs) [] 0) as [evs [[rows valid]|e|code]]
      eqn:Hloop; cbn [bind].
    + apply check_files_valid_count in Hloop. cbn [Nat.add] in Hloop.
      destruct (filter_length_all (valid_file env) (f :: fs)) as [Hle Hall].
      assert (valid < List.length (f :: fs))%nat as Hlt.
      { destruct (Nat.eq_dec valid (List.length (f :: fs))) as [Heq|Hne]; [|lia].
        rewrite Hloop in Heq. apply Hall in Heq. congruence. }
      apply Nat.ltb_lt in Hlt. unfold console_print.
      destruct (first_markup_error env _) as [m|].
      * apply CliFacts.exit_code_guarded_raised.
      * cbn [bind print app]. rewrite Hlt. reflexivity.
    + apply CliFacts.exit_code_guarded_raised.
    + rewrite (Hexit code eq_refl). reflexivity.
  - intros _ Hvalid Hshown Htable. cbv zeta.
    rewrite (check_files_all_valid env p (f :: fs) [] 0 Hvalid Hshown).
    cbn [bind app]. unfold validation_table in Htable.
    rewrite (console_print_renders env _ Htable).
    cbn [bind print app Nat.add]. rewrite Nat.ltb_irrefl. reflexivity.
Qed.

Lemma all_declared_quiet :
  no_collaborator_exits
    (with_analysis CliFacts.sample_env (fun _ => Returned [])).
Proof.
  apply with_analysis_quiet; [exact sample_env_quiet|].
  intros a code. discriminate.
Qed.

Lemma validate_exits_0_only_if_all_files_valid_witness :
  exit_code (validate CliFacts.sample_env "a.pal" false) = 1%Z /\
  validate (with_analysis CliFacts.sample_env (fun _ => Returned [])) "a.pal" false
  = ([ Stdout (Table "PAL Validation Results" ["File"; "Type"; "Status"; "Issues"]
                 [["a.pal"; "Assembly"; "[green]Valid[/green]"; ""]]);
       Stdout (Text (newline ++ "[bold]Summary:[/bold] 1/1 files valid")) ],
     Returned tt).
Proof.
  split.
  - refine (proj1 (proj2 (validate_exits_0_only_if_all_files_valid
                            CliFacts.sample_env "a.pal" false sample_env_quiet))
              _ eq_refl).
    discriminate.
  - refine (proj2 (proj2 (validate_exits_0_only_if_all_files_valid
                            (with_analysis CliFacts.sample_env (fun _ => Returned []))
                            "a.pal" false
                            all_declared_quiet))
              _ eq_refl _ eq_refl).
    + discriminate.
    + intros f Hf. exists f. reflexivity.
Defined.

(** A single file that is neither [*.pal] nor [*.pal.lib] is skipped, and
    the command exits with code 1 over an empty table. *)
Example validate_other_file :
  check_file CliFacts.sample_env "notes.txt" = ([], Returned None) /\
  valid_file CliFacts.sample_env "notes.txt" = false.
Proof. split; reflexivity. Qed.

(** ** [evaluate] *)

(** What went to the error console. *)
Definition stderr_lines (evs : list event) : list string :=
  flat_map (fun ev => match ev with Stderr s => [s] | Stdout _ => [] end) evs.

Definition failed_test_lines (result : EvaluationResult) : list string :=
  map (fun t => "[red]✗[/red] " ++ test_case_name t)%string
      (filter (fun t => negb (passed t)) (test_results result)).

Lemma stderr_lines_Stderr (texts : list string) :
  stderr_lines (map Stderr texts) = texts.
Proof.
  unfold stderr_lines. induction texts as [|t texts IH]; [reflexivity|].
  cbn [map flat_map app]. now f_equal.
Qed.

(** The text that [evaluate] prints for the report, if any: the
    confirmation when the report went to a file, the report itself in the
    console format; JSON data is not read as markup. *)
Definition report_text (output : option path) (output_format : string)
           (text : string) : option string :=
  match output with
  | Some out =>
      Some ("[green]✓[/green] Evaluation report written to " ++ out)%string
  | None => if String.eqb output_format "json" then None else Some text
  end.

Definition report_renders (env : collaborators) (output : option path)
           (output_format : string) (text : string) : bool :=
  match report_text output output_format text with
  | Some printed => renders env printed
  | None => true
  end.

(** X15.  When the client is set up, the evaluation runs and the report is
    produced and written or serialized, [evaluate] ends with exit code 0
    exactly when the pass rate is 1 and [rich] renders the text printed
    for the report, and with exit code 1 otherwise.  When that text and
    the names of the failed tests render, nothing goes to the error
    console on a full pass, and otherwise the failed tests are named
    there, in order, exactly when no output file was given or the format
    is [json]. *)
Theorem evaluate_exit_code_follows_pass_rate
        (env : collaborators) (eval_file : path) (pal_file : option path)
        (model provider : string) (api_key : option string) (temperature : Q)
        (max_tokens : option Z) (output : option path) (output_format : string)
        (client : llm_client env) (result : EvaluationResult)
        (data : pyvalue) (text : string) :
  make_client env provider api_key "This is a mock response for evaluation."
  = ([], Returned client) ->
  run_evaluation env client eval_file pal_file model temperature max_tokens
  = Returned result ->
  generate_json_report env result = Returned data ->
  generate_console_report env result = Returned text ->
  json_from_data env data = Returned tt ->
  (forall out content, write_text env out content = Returned tt) ->
  exit_code (evaluate env eval_file pal_file model provider api_key temperature
               max_tokens output output_format)
  = (if Qeq_bool (pass_rate result) 1 && report_renders env output output_format text
     then 0 else 1)%Z /\
  (report_renders env output output_format text = true ->
   forallb (renders env) (failed_test_lines result) = true ->
   stderr_lines (console_output
                   (evaluate env eval_file pal_file model provider api_key
                      temperature max_tokens output output_format))
   = if Qeq_bool (pass_rate result) 1 then []
     else if match output with None => true | Some _ => false end
             || String.eqb output_format "json"
          then failed_test_lines result
          else []).
Proof.
  intros Hclient Hrun Hjson Htext Hdata Hwrite.
  unfold evaluate, evaluate_body. rewrite Hclient.
  unfold run_evaluation_async, print_json. cbn [bind app]. rewrite Hrun.
  cbn [call bind app].
  unfold report_renders, report_text.
  destruct (String.eqb output_format "json") eqn:Hformat;
    rewrite ?Hjson, ?Htext; destruct output as [out|];
    cbn [call bind app]; rewrite ?Hwrite, ?Hdata; cbn [call bind app].
  all: unfold console_print, renders; cbn [markup_texts first_markup_error].
  all: try (destruct (markup_error env _) as [m|] eqn:Hm; cbn [bind app];
            [split;
             [rewrite andb_false_r; apply CliFacts.exit_code_guarded_raised
             |discriminate]|]).
  all: destruct (Qeq_bool (pass_rate result) 1) eqn:Hrate;
    cbn [bind app print andb orb].
  all: try (split; [reflexivity | intros _ _; reflexivity]).
  all: unfold failed_test_lines; split;
    [ match goal with
      | |- context [error_print_each ?E ?texts] =>
          pose proof (CliFacts.error_print_each_outcome E texts) as Hout;
          destruct (error_print_each E texts) as [evs [u|m'|code]];
          cbn [bind app];
          [reflexivity | apply CliFacts.exit_code_guarded_raised
          | now destruct (Hout code)]
      end
    | intros _ Hlines;
      rewrite (error_print_each_renders env _ Hlines);
      unfold guarded, try_except, console_output; cbn [bind app fst sys_exit];
      unfold stderr_lines; cbn [flat_map app];
      rewrite ?app_nil_r; apply stderr_lines_Stderr ].
Qed.

Lemma evaluate_exit_code_follows_pass_rate_witness :
  exit_code (evaluate CliFacts.sample_env "suite.yaml" None "mock" "mock" None
               (7 # 10) None None "console") = 0%Z.
Proof.
  exact (proj1 (evaluate_exit_code_follows_pass_rate CliFacts.sample_env
                  "suite.yaml" None "mock" "mock" None (7 # 10) None None "console"
                  tt {| pass_rate := 1; total_tests := 0; failed_tests := 0;
                        test_results := [] |}
                  (VDict []) "" eq_refl eq_refl eq_refl eq_refl eq_refl
                  (fun _ _ => eq_refl))).
Defined.

(** ** [info] *)

(** The tables that [info] shows: for a library the table of its
    properties and, when it has components, the table of these; for an
    assembly the table of its properties and, when it has any, the tables
    of its variables and of its imports. *)
Definition library_tables (library : ComponentLibrary) : list renderable :=
  library_table library
  :: match lib_components library with
     | [] => []
     | _ :: _ => [components_table library]
     end.

Definition assembly_tables (assembly : PromptAssembly) : list renderable :=
  assembly_table assembly
  :: match pa_variables assembly with
     | [] => []
     | _ :: _ => [variables_table assembly]
     end
  ++ match pa_imports assembly with
     | [] => []
     | _ :: _ => [imports_table assembly]
     end.

Fixpoint print_each (env : collaborators) (tables : list renderable) : cli unit :=
  match tables with
  | [] => ret tt
  | table :: rest => bind (console_print env table) (fun _ => print_each env rest)
  end.

Lemma info_library_print_each env library :
  info_library env library = print_each env (library_tables library).
Proof.
  unfold info_library, library_tables.
  destruct (lib_components library); cbn [print_each]; unfold console_print;
    repeat destruct (first_markup_error env _); reflexivity.
Qed.

Lemma bind_ret_left {A B} (a : A) (k : A -> cli B) : bind (ret a) k = k a.
Proof. unfold ret, bind. now destruct (k a). Qed.

Lemma bind_call_returned {A B} (a : A) (k : A -> cli B) :
  bind (call (Returned a)) k = k a.
Proof. exact (bind_ret_left a k). Qed.

Lemma info_assembly_print_each env assembly :
  info_assembly env assembly = print_each env (assembly_tables assembly).
Proof.
  unfold info_assembly, assembly_tables.
  destruct (pa_variables assembly); destruct (pa_imports assembly);
    cbn [print_each app]; unfold console_print;
    repeat destruct (first_markup_error env _); reflexivity.
Qed.

Lemma print_each_renders env tables :
  forallb (renders_all env) tables = true ->
  print_each env tables = (map Stdout tables, Returned tt).
Proof.
  induction tables as [|table tables IH]; simpl; [reflexivity|].
  rewrite andb_true_iff. intros [Htable Hrest].
  rewrite (console_print_renders env table Htable), (IH Hrest). reflexivity.
Qed.

Lemma print_each_fails env tables :
  forallb (renders_all env) tables = false ->
  exists evs m, print_each env tables = (evs, Raised m).
Proof.
  induction tables as [|table tables IH]; simpl; [discriminate|].
  destruct (renders_all env table) eqn:Htable; simpl.
  - intros Hrest. destruct (IH Hrest) as (evs & m & Hfail).
    rewrite (console_print_renders env table Htable), Hfail. simpl. eauto.
  - intros _. destruct (console_print_fails env table Htable) as [m ->].
    simpl. eauto.
Qed.

Lemma guarded_print_each env tables :
  (forallb (renders_all env) tables = true ->
   guarded env (print_each env tables) = (map Stdout tables, Returned tt)) /\
  exit_code (guarded env (print_each env tables))
  = (if forallb (renders_all env) tables then 0 else 1)%Z.
Proof.
  destruct (forallb (renders_all env) tables) eqn:H.
  - rewrite (print_each_renders env tables H). split; reflexivity.
  - split; [discriminate|].
    destruct (print_each_fails env tables H) as (evs & m & ->).
    apply CliFacts.exit_code_guarded_raised.
Qed.

(** X16.  [info] chooses the loader by the file's name alone: the library
    loader for a name ending in [.pal.lib], the assembly loader for every
    other name, whatever its suffix.  When that loader raises an instance
    of [Exception], the command goes straight to its closing clause,
    [handle_error] on that error and then [sys.exit(1)].  When it returns,
    the exit code is 0 exactly when [rich] renders every table to show,
    and 1 otherwise; when they render, exactly these tables are printed,
    in order, and nothing goes to the error console. *)
Theorem info_follows_the_loader_of_the_name
        (env : collaborators) (pal_file : path) :
  (endswith (path_name pal_file) ".pal.lib" = true ->
   (forall e,
       load_component_library env pal_file = Raised e ->
       isinstance e Exception = true ->
       info env pal_file = on_exception env e) /\
   (forall library,
       load_component_library env pal_file = Returned library ->
       exit_code (info env pal_file)
       = (if forallb (renders_all env) (library_tables library) then 0 else 1)%Z /\
       (forallb (renders_all env) (library_tables library) = true ->
        info env pal_file = (map Stdout (library_tables library), Returned tt)))) /\
  (endswith (path_name pal_file) ".pal.lib" = false ->
   (forall e,
       load_prompt_assembly env pal_file = Raised e ->
       isinstance e Exception = true ->
       info env pal_file = on_exception env e) /\
   (forall assembly,
       load_prompt_assembly env pal_file = Returned assembly ->
       exit_code (info env pal_file)
       = (if forallb (renders_all env) (assembly_tables assembly) then 0 else 1)%Z /\
       (forallb (renders_all env) (assembly_tables assembly) = true ->
        info env pal_file = (map Stdout (assembly_tables assembly), Returned tt)))).
Proof.
  unfold info, info_body.
  split; intros Hname; rewrite Hname; split.
  - intros e Hload Hexc. rewrite Hload. cbn [call bind].
    now apply guarded_raises.
  - intros library Hload. rewrite Hload, bind_call_returned.
    rewrite info_library_print_each.
    destruct (guarded_print_each env (library_tables library)) as [Hall Hcode].
    split; assumption.
  - intros e Hload Hexc. rewrite Hload. cbn [call bind].
    now apply guarded_raises.
  - intros assembly Hload. rewrite Hload, bind_call_returned.
    rewrite info_assembly_print_each.
    destruct (guarded_print_each env (assembly_tables assembly)) as [Hall Hcode].
    split; assumption.
Qed.

Lemma info_follows_the_loader_of_the_name_witness :
  info CliFacts.sample_env "traits.pal.lib"
  = ([Stderr "[red]Error:[/red] Not a library"], Exited 1%Z) /\
  info CliFacts.sample_env "greeting.pal"
  = ([Stdout (assembly_table CliFacts.sample_assembly)], Returned tt).
Proof.
  split.
  - rewrite (proj1 (proj1 (info_follows_the_loader_of_the_name CliFacts.sample_env
                             "traits.pal.lib") eq_refl)
               (PALError_init PALLoadError "Not a library" None) eq_refl eq_refl).
    reflexivity.
  - exact (proj2 (proj2 (proj2 (info_follows_the_loader_of_the_name
                                  CliFacts.sample_env "greeting.pal") eq_refl)
                    CliFacts.sample_assembly eq_refl) eq_refl).
Defined.

(** ** [execute] *)

(** X17.  [execute] sets up the client after the variables and before it
    touches the prompt file: when the variables are read and the
    constructor of the client of the provider [openai] or [anthropic]
    raises an instance of [Exception] (the package is not installed, no
    key is given), the command goes straight to its closing clause,
    [handle_error] on that error and then [sys.exit(1)]; the prompt is
    neither loaded nor compiled nor executed. *)
Theorem execute_client_failure_comes_first
        (env : collaborators) (vars : option string) (vars_file : option path)
        (variables : dict pyvalue) (api_key : option string) (e : exception) :
  load_variables env vars vars_file = ([], Returned variables) ->
  isinstance e Exception = true ->
  (OpenAIClient env api_key = Raised e ->
   forall pal_file model temperature max_tokens log_file output json_output,
     execute env pal_file model "openai" vars vars_file temperature max_tokens
       api_key log_file output json_output
     = on_exception env e) /\
  (AnthropicClient env api_key = Raised e ->
   forall pal_file model temperature max_tokens log_file output json_output,
     execute env pal_file model "anthropic" vars vars_file temperature max_tokens
       api_key log_file output json_output
     = on_exception env e).
Proof.
  intros Hvars Hexc.
  split; intros Hclient pal_file model temperature max_tokens log_file output
                json_output;
    unfold execute, execute_body; rewrite Hvars; unfold make_client;
    [ change (String.eqb "openai" "openai") with true
    | change (String.eqb "anthropic" "openai") with false;
      change (String.eqb "anthropic" "anthropic") with true ];
    cbv iota; rewrite Hclient; cbn [call bind app];
    now apply guarded_raises.
Qed.

Lemma execute_client_failure_comes_first_witness :
  execute CliFacts.sample_env "a.pal" "gpt-4" "openai" None None (7 # 10) None
    None None None false
  = ([Stderr "[red]Error:[/red] OpenAI package not installed"], Exited 1%Z).
Proof.
  rewrite (proj1 (execute_client_failure_comes_first CliFacts.sample_env None None
                    [] None
                    (PALError_init PALExecutorError "OpenAI package not installed"
                       None)
                    eq_refl eq_refl) eq_refl).
  reflexivity.
Defined.

End CliExtras.
